(** * Production balancing engine of the Satisfactory tracker

    A shallow embedding of [models.py] (ResourceNode, Facility, Base) and of
    [production_graph.py] (ProductionGraph), followed by the properties of
    the aggregation, shortage-propagation and clock-speed code.

    Python [float] is IEEE binary64, which is Rocq's primitive [float]; the
    arithmetic below is therefore the arithmetic the interpreter performs.
    Rates and clock speeds are floats, as the annotations of the source say
    (an [int] such as 60, 250 or the default 0 of [dict.get] stands for the
    float of the same value).
    Python [dict]s keep insertion order and the engine iterates over them, so
    they are association lists with the update-in-place / append-at-the-end
    discipline of [dict.__setitem__].  Exceptions are an explicit result
    type. *)

From Stdlib Require Import ZArith QArith Qround List String Bool Lia.
From Stdlib Require Import Floats.
From Stdlib Require Import Permutation.
Import ListNotations.
Close Scope Q_scope.

(* Decimal literals such as 0.001 denote the nearest binary64, as in Python. *)
#[global] Set Warnings "-inexact-float".

(** ** Exceptions *)

Inductive exn : Set :=
| KeyError
| ZeroDivisionError
| InvalidOperation   (* decimal.InvalidOperation *)
| ValueError
| TypeError.

Inductive result (A : Type) : Type :=
| Ok (a : A)
| Raise (e : exn).

Arguments Ok {A} a.
Arguments Raise {A} e.

Definition bind {A B : Type} (m : result A) (k : A -> result B) : result B :=
  match m with
  | Ok a => k a
  | Raise e => Raise e
  end.

Notation "x <- m ;; k" := (bind m (fun x => k))
  (at level 61, m at next level, right associativity).
Notation "' pat <- m ;; k" := (bind m (fun x => match x with pat => k end))
  (at level 61, pat pattern, m at next level, right associativity).

(** A [for] loop whose body may raise: the state is threaded from left to
    right and the first exception aborts the loop. *)
Fixpoint for_each {A S : Type} (xs : list A) (body : S -> A -> result S)
    (s : S) : result S :=
  match xs with
  | [] => Ok s
  | x :: xs' => s' <- body s x ;; for_each xs' body s'
  end.

(** ** Floats: [str], [Decimal.quantize] and [float()] *)

Module PyFloat.

Local Open Scope Z_scope.

(** [b ^ k] as a rational, for any integer exponent. *)
Definition qpow (b : Z) (k : Z) : Q := Qpower (inject_Z b) k.

Definition round_half_even (q : Q) : Z :=
  let f := Qfloor q in
  match Qcompare (q - inject_Z f) (1 # 2) with
  | Lt => f
  | Gt => f + 1
  | Eq => if Z.even f then f else f + 1
  end.

(** [float(s)] for a decimal string of value [(-1)^neg * q], [0 <= q]:
    the nearest binary64, ties to even. *)
Definition of_Q (neg : bool) (q : Q) : float :=
  let n := Qnum q in
  let d := Zpos (Qden q) in
  if n <=? 0 then (if neg then neg_zero else zero)
  else
    let e0 := Z.max (Z.log2 n - Z.log2 d - 52) (-1074) in
    let e1 := if (Qfloor (q * qpow 2 (- e0)) <? 2 ^ 52) && (-1074 <? e0)
              then e0 - 1 else e0 in
    match round_half_even (q * qpow 2 (- e1)) with
    | Zpos p => SF2Prim (S754_finite neg p e1)
    | _ => if neg then neg_zero else zero
    end.

(** [floor (log10 q)] for [0 < q]. *)
Definition ilog10 (q : Q) : Z :=
  let est := ((Z.log2 (Qnum q) - Z.log2 (Zpos (Qden q))) * 30103) / 100000 in
  let ge k := Qle_bool (qpow 10 k) q in
  if ge (est + 2) then est + 2
  else if ge (est + 1) then est + 1
  else if ge est then est
  else if ge (est - 1) then est - 1
  else est - 2.

(** [repr] of a finite non-zero float of magnitude [q]: the decimal
    [c * 10^s] with the fewest significant digits that reads back as the
    same float, the closest one to [q] when there are two. *)
Fixpoint shortest (fuel : nat) (x : float) (q : Q) (k p : Z) : Z * Z :=
  let s := k - p + 1 in
  let scaled := (q * qpow 10 (- s))%Q in
  let cl := Qfloor scaled in
  let cu := cl + 1 in
  let reads_back c := (of_Q false (inject_Z c * qpow 10 s) =? x)%float in
  let nearest := round_half_even scaled in
  match fuel with
  | O => (nearest, s)
  | S fuel' =>
      match reads_back cl, reads_back cu with
      | true, true => (nearest, s)
      | true, false => (cl, s)
      | false, true => (cu, s)
      | false, false => shortest fuel' x q k (p + 1)
      end
  end.

Definition repr_decimal (x : float) (m : positive) (e : Z) : Q :=
  let q := (inject_Z (Zpos m) * qpow 2 e)%Q in
  let '(c, s) := shortest 16 (abs x) q (ilog10 q) 1 in
  (inject_Z c * qpow 10 s)%Q.

(** Python's [/] on floats. *)
Definition truediv (x y : float) : result float :=
  if (y =? 0)%float then Raise ZeroDivisionError else Ok (x / y)%float.

End PyFloat.

(** [ProductionGraph.round_float]:
    [float(Decimal(str(value)).quantize(Decimal('0.00..0'), ROUND_HALF_UP))]
    under the default decimal context (28 digits, InvalidOperation trapped). *)
Definition round_float (value : float) (decimal_places : nat) : result float :=
  let dp := Z.of_nat decimal_places in
  match Prim2SF value with
  | S754_nan => Ok nan
  | S754_infinity _ => Raise InvalidOperation
  | S754_zero s => Ok (if s then neg_zero else zero)
  | S754_finite s m e =>
      let d := PyFloat.repr_decimal value m e in
      if Qle_bool (PyFloat.qpow 10 (28 - dp)) d then Raise InvalidOperation
      else
        let n := Qfloor (d * PyFloat.qpow 10 dp + (1 # 2)) in
        if (10 ^ 28 <=? n)%Z then Raise InvalidOperation
        else Ok (PyFloat.of_Q s (inject_Z n * PyFloat.qpow 10 (- dp)))
  end.

Open Scope float_scope.

(** Python's two-argument [min] and [max] keep their first argument unless
    the second one compares strictly smaller (resp. greater). *)
Definition py_min (a b : float) : float := if (b <? a)%float then b else a.
Definition py_max (a b : float) : float := if (a <? b)%float then b else a.

(** ** Dictionaries (insertion ordered) *)

Class Key (K : Type) : Type := {
  key_eqb : K -> K -> bool;
  key_eqb_eq : forall a b, key_eqb a b = true <-> a = b
  }.

#[export] Instance string_Key : Key string :=
  {| key_eqb := String.eqb; key_eqb_eq := String.eqb_eq |}.

#[export] Instance Z_Key : Key Z :=
  {| key_eqb := Z.eqb; key_eqb_eq := Z.eqb_eq |}.

Module Dict.
Section Ops.
Context {K V : Type} `{Key K}.

Definition t : Type := list (K * V).

Definition empty : t := [].

(** [d.get(k)] *)
Fixpoint get (d : t) (k : K) : option V :=
  match d with
  | [] => None
  | (k', v) :: d' => if key_eqb k' k then Some v else get d' k
  end.

(** [d.get(k, default)] *)
Definition get_default (d : t) (k : K) (default : V) : V :=
  match get d k with
  | Some v => v
  | None => default
  end.

(** [d[k]] *)
Definition getitem (d : t) (k : K) : result V :=
  match get d k with
  | Some v => Ok v
  | None => Raise KeyError
  end.

(** [k in d] *)
Definition mem (d : t) (k : K) : bool :=
  match get d k with
  | Some _ => true
  | None => false
  end.

(** [d[k] = v]: an existing key keeps its position, a new one goes last. *)
Fixpoint set (d : t) (k : K) (v : V) : t :=
  match d with
  | [] => [(k, v)]
  | (k', v') :: d' =>
      if key_eqb k' k then (k', v) :: d' else (k', v') :: set d' k v
  end.

(** [del d[k]] for a key that may be absent ([d.pop(k, None)]). *)
Fixpoint remove (d : t) (k : K) : t :=
  match d with
  | [] => []
  | (k', v') :: d' =>
      if key_eqb k' k then d' else (k', v') :: remove d' k
  end.

Definition keys (d : t) : list K := map fst d.
Definition values (d : t) : list V := map snd d.
Definition items (d : t) : list (K * V) := d.
End Ops.
Arguments t : clear implicits.
End Dict.

(** [dict(pairs)]: the pairs are assigned in order, so a repeated key keeps
    its first position and takes its last value. *)
Definition dict_of_pairs {K V : Type} `{Key K} (pairs : list (K * V))
    : Dict.t K V :=
  fold_left (fun d '(k, v) => Dict.set d k v) pairs [].

(** ** models.py *)

Definition item_rates : Type := list (string * float).

Module ResourceNode.

Record t : Type := mk {
  node_id : Z;
  resource_type : string;
  purity : string;
  miner_type : string;
  miner_rate : float;
  clock_speed : float;
  output_rate : float
}.

Definition purity_multiplier : Dict.t string float :=
  [("Impure"%string, 0.5%float); ("Normal"%string, 1%float);
   ("Pure"%string, 2%float)].

Definition calculate_output_rate (self : t) : result float :=
  m <- Dict.getitem purity_multiplier (purity self) ;;
  Ok (m * miner_rate self * (clock_speed self / 100))%float.

(** [ResourceNode(node_id, resource_type, purity, miner_type, miner_rate)]:
    [output_rate] is assigned last, from the other attributes. *)
Definition init (node_id : Z) (resource_type purity miner_type : string)
    (miner_rate : float) : result t :=
  let self := mk node_id resource_type purity miner_type miner_rate 100 0 in
  r <- calculate_output_rate self ;;
  Ok (mk node_id resource_type purity miner_type miner_rate 100 r).

Definition set_clock_speed (self : t) (clock_speed : float) : result t :=
  let self := mk (node_id self) (resource_type self) (purity self)
                 (miner_type self) (miner_rate self)
                 (py_max 0.001 (py_min 250 clock_speed)) (output_rate self) in
  r <- calculate_output_rate self ;;
  Ok (mk (node_id self) (resource_type self) (purity self)
         (miner_type self) (miner_rate self) (ResourceNode.clock_speed self) r).

End ResourceNode.

Module Recipe.

Record t : Type := mk {
  name : string;
  building_type : string;
  inputs : item_rates;
  outputs : item_rates
}.

End Recipe.

Module Facility.

Record t : Type := mk {
  facility_id : Z;
  facility_type : string;
  recipe : string;
  input_items : item_rates;
  output_items : item_rates;
  clock_speed : float;
  is_active : bool
}.

(** [Facility(facility_id, facility_type, recipe)] *)
Definition init (facility_id : Z) (facility_type recipe : string) : t :=
  mk facility_id facility_type recipe [] [] 100 true.

Definition set_input_item (self : t) (item : string) (rate : float) : t :=
  mk (facility_id self) (facility_type self) (recipe self)
     (input_items self ++ [(item, rate)]) (output_items self)
     (clock_speed self) (is_active self).

Definition set_output_item (self : t) (item : string) (rate : float) : t :=
  mk (facility_id self) (facility_type self) (recipe self)
     (input_items self) (output_items self ++ [(item, rate)])
     (clock_speed self) (is_active self).

Definition set_clock_speed (self : t) (clock_speed : float) : t :=
  mk (facility_id self) (facility_type self) (recipe self)
     (input_items self) (output_items self)
     (py_max 0.001 (py_min 250 clock_speed)) (is_active self).

Definition toggle_active_state (self : t) : t :=
  mk (facility_id self) (facility_type self) (recipe self)
     (input_items self) (output_items self)
     (clock_speed self) (negb (is_active self)).

Definition get_adjusted_rates (self : t) : item_rates * item_rates :=
  if negb (is_active self) then ([], [])
  else
    let adjustment_factor := (clock_speed self / 100)%float in
    let adjusted_inputs :=
      map (fun '(item, rate) => (item, (rate * adjustment_factor)%float))
          (input_items self) in
    let adjusted_outputs :=
      map (fun '(item, rate) => (item, (rate * adjustment_factor)%float))
          (output_items self) in
    (adjusted_inputs, adjusted_outputs).

(** The pair stands for [{"input": ..., "output": ...}]. *)
Definition get_production_rates (self : t)
    : Dict.t string float * Dict.t string float :=
  (dict_of_pairs (input_items self), dict_of_pairs (output_items self)).

(** The facility takes the recipe's two lists as they are at that moment. *)
Definition update_recipe (self : t) (recipe : Recipe.t) : t :=
  mk (facility_id self) (facility_type self) (Recipe.name recipe)
     (Recipe.inputs recipe) (Recipe.outputs recipe) 100 (is_active self).

End Facility.

Module Base.

Record t : Type := mk {
  base_id : Z;
  name : string;
  nodes : Dict.t Z ResourceNode.t;
  facilities : Dict.t Z Facility.t;
  storage : Dict.t string float
}.

Definition init (base_id : Z) (name : string) : t :=
  mk base_id name [] [] [].

Definition add_node (self : t) (node : ResourceNode.t) : t :=
  mk (base_id self) (name self)
     (Dict.set (nodes self) (ResourceNode.node_id node) node)
     (facilities self) (storage self).

Definition add_facility (self : t) (facility : Facility.t) : t :=
  mk (base_id self) (name self) (nodes self)
     (Dict.set (facilities self) (Facility.facility_id facility) facility)
     (storage self).

Definition update_storage (self : t) (item : string) (quantity : float) : t :=
  mk (base_id self) (name self) (nodes self) (facilities self)
     (match Dict.get (storage self) item with
      | Some q => Dict.set (storage self) item (q + quantity)
      | None => Dict.set (storage self) item quantity
      end).

End Base.

Module ResourceType.

Record t : Type := mk { name : string }.

End ResourceType.

Module MinerType.

Record t : Type := mk { name : string; base_rate : float }.

End MinerType.

Module BuildingType.

Record t : Type := mk { name : string }.

End BuildingType.

Module GameData.

Record t : Type := mk {
  resource_types : list ResourceType.t;
  miner_types : list MinerType.t;
  building_types : list BuildingType.t;
  recipes : list Recipe.t;
  next_base_id : Z;
  next_node_id : Z;
  next_facility_id : Z
}.

Definition init : t := mk [] [] [] [] 1 1 1.

Definition add_resource_type (self : t) (name : string) : t :=
  mk (resource_types self ++ [ResourceType.mk name]) (miner_types self)
     (building_types self) (recipes self)
     (next_base_id self) (next_node_id self) (next_facility_id self).

Definition add_miner_type (self : t) (name : string) (base_rate : float) : t :=
  mk (resource_types self) (miner_types self ++ [MinerType.mk name base_rate])
     (building_types self) (recipes self)
     (next_base_id self) (next_node_id self) (next_facility_id self).

Definition add_building_type (self : t) (name : string) : t :=
  mk (resource_types self) (miner_types self)
     (building_types self ++ [BuildingType.mk name]) (recipes self)
     (next_base_id self) (next_node_id self) (next_facility_id self).

Definition add_recipe (self : t) (name building_type : string)
    (inputs outputs : item_rates) : t :=
  mk (resource_types self) (miner_types self) (building_types self)
     (recipes self ++ [Recipe.mk name building_type inputs outputs])
     (next_base_id self) (next_node_id self) (next_facility_id self).

(** [None] is Python's [None]: no recipe has the name. *)
Definition get_recipe_by_name (self : t) (name : string) : option Recipe.t :=
  find (fun recipe => String.eqb (Recipe.name recipe) name) (recipes self).

(** The three allocators return the id and leave the counter one higher. *)
Definition get_next_base_id (self : t) : Z * t :=
  (next_base_id self,
   mk (resource_types self) (miner_types self) (building_types self)
      (recipes self)
      (next_base_id self + 1) (next_node_id self) (next_facility_id self)).

Definition get_next_node_id (self : t) : Z * t :=
  (next_node_id self,
   mk (resource_types self) (miner_types self) (building_types self)
      (recipes self)
      (next_base_id self) (next_node_id self + 1) (next_facility_id self)).

Definition get_next_facility_id (self : t) : Z * t :=
  (next_facility_id self,
   mk (resource_types self) (miner_types self) (building_types self)
      (recipes self)
      (next_base_id self) (next_node_id self) (next_facility_id self + 1)).

Definition delete_resource_type (self : t) (name : string) : t :=
  mk (filter (fun rt => negb (String.eqb (ResourceType.name rt) name))
             (resource_types self))
     (miner_types self) (building_types self) (recipes self)
     (next_base_id self) (next_node_id self) (next_facility_id self).

Definition delete_miner_type (self : t) (name : string) : t :=
  mk (resource_types self)
     (filter (fun mt => negb (String.eqb (MinerType.name mt) name))
             (miner_types self))
     (building_types self) (recipes self)
     (next_base_id self) (next_node_id self) (next_facility_id self).

Definition delete_building_type (self : t) (name : string) : t :=
  mk (resource_types self) (miner_types self)
     (filter (fun bt => negb (String.eqb (BuildingType.name bt) name))
             (building_types self))
     (recipes self)
     (next_base_id self) (next_node_id self) (next_facility_id self).

Definition delete_recipe (self : t) (name : string) : t :=
  mk (resource_types self) (miner_types self) (building_types self)
     (filter (fun recipe => negb (String.eqb (Recipe.name recipe) name))
             (recipes self))
     (next_base_id self) (next_node_id self) (next_facility_id self).

End GameData.

(** ** production_graph.py *)

Definition rates : Type := Dict.t string float.
Definition factors : Type := Dict.t string (list string).

(** [totals[item] = round_float(totals.get(item, 0) + rate, 2)] *)
Definition accumulate (totals : rates) (item : string) (rate : float)
    : result rates :=
  v <- round_float (Dict.get_default totals item 0 + rate)%float 2 ;;
  Ok (Dict.set totals item v).

Definition accumulate_node (totals : rates) (node : ResourceNode.t)
    : result rates :=
  accumulate totals (ResourceNode.resource_type node)
             (ResourceNode.output_rate node).

Definition accumulate_item (totals : rates) (entry : string * float)
    : result rates :=
  let '(item, rate) := entry in accumulate totals item rate.

(** The body of the facility loop of the aggregation passes: consumption
    from the adjusted inputs, then production from the adjusted outputs. *)
Definition accumulate_facility (st : rates * rates) (facility : Facility.t)
    : result (rates * rates) :=
  let '(consumption, production) := st in
  let '(adjusted_inputs, adjusted_outputs) :=
    Facility.get_adjusted_rates facility in
  consumption <- for_each adjusted_inputs accumulate_item consumption ;;
  production <- for_each adjusted_outputs accumulate_item production ;;
  Ok (consumption, production).

(** What a Python tuple returned by the engine may hold. *)
Inductive pyvalue : Type :=
| PyRates (d : rates)
| PyFactors (d : factors).

(** [a, b = t] *)
Definition unpack2 (t : list pyvalue) : result (pyvalue * pyvalue) :=
  match t with
  | [a; b] => Ok (a, b)
  | _ => Raise ValueError
  end.

Module ProductionGraph.

Record t : Type := mk {
  bases : Dict.t Z Base.t;
  unlinked_nodes : Dict.t Z ResourceNode.t
}.

(** A method: it may raise, and it leaves the object in some state. *)
Definition method (A : Type) : Type := t -> result A * t.

(** A method that only reads [self]. *)
Definition reading {A : Type} (f : t -> result A) : method A :=
  fun self => (f self, self).

Definition init : t := mk [] [].

Definition add_base (base : Base.t) : method unit :=
  fun self =>
    (Ok tt, mk (Dict.set (bases self) (Base.base_id base) base)
               (unlinked_nodes self)).

Definition add_unlinked_node (node : ResourceNode.t) : method unit :=
  fun self =>
    (Ok tt, mk (bases self)
               (Dict.set (unlinked_nodes self)
                         (ResourceNode.node_id node) node)).

Definition remove_unlinked_node (node : ResourceNode.t) : method unit :=
  fun self =>
    (Ok tt, mk (bases self)
               (Dict.remove (unlinked_nodes self)
                            (ResourceNode.node_id node))).

Definition get_unlinked_nodes : method (Dict.t Z ResourceNode.t) :=
  reading (fun self => Ok (unlinked_nodes self)).

Definition delete_base (base_id : Z) : method unit :=
  fun self =>
    (Ok tt, if Dict.mem (bases self) base_id
            then mk (Dict.remove (bases self) base_id) (unlinked_nodes self)
            else self).

(** The loop of [delete_node]: the first base that holds the node loses it. *)
Fixpoint delete_node_in (bs : Dict.t Z Base.t) (node_id : Z)
    : option (Dict.t Z Base.t) :=
  match bs with
  | [] => None
  | (k, b) :: rest =>
      if Dict.mem (Base.nodes b) node_id
      then Some ((k, Base.mk (Base.base_id b) (Base.name b)
                       (Dict.remove (Base.nodes b) node_id)
                       (Base.facilities b) (Base.storage b)) :: rest)
      else option_map (cons (k, b)) (delete_node_in rest node_id)
  end.

Definition delete_node (node_id : Z) : method unit :=
  fun self =>
    (Ok tt,
     match delete_node_in (bases self) node_id with
     | Some bs => mk bs (unlinked_nodes self)
     | None => mk (bases self) (Dict.remove (unlinked_nodes self) node_id)
     end).

Definition delete_facility (base_id facility_id : Z) : method unit :=
  fun self =>
    (Ok tt,
     match Dict.get (bases self) base_id with
     | Some b =>
         mk (Dict.set (bases self) base_id
               (Base.mk (Base.base_id b) (Base.name b) (Base.nodes b)
                  (Dict.remove (Base.facilities b) facility_id)
                  (Base.storage b)))
            (unlinked_nodes self)
     | None => self
     end).

(** Lines 52-58: raw production of every base's nodes, then of the
    unlinked nodes. *)
Definition raw_production_pass (self : t) : result rates :=
  raw <- for_each (Dict.values (bases self))
           (fun raw base =>
              for_each (Dict.values (Base.nodes base)) accumulate_node raw)
           [] ;;
  for_each (Dict.values (unlinked_nodes self)) accumulate_node raw.

(** Lines 61-72: consumption and production of every facility. *)
Definition facility_pass (self : t) (raw_production : rates)
    : result (rates * rates) :=
  for_each (Dict.values (bases self))
    (fun st base =>
       for_each (Dict.values (Base.facilities base)) accumulate_facility st)
    ([], raw_production).

(** Lines 85-89, for one output of a facility that lists [item]. *)
Definition limit_output (item : string) (production_ratio : float)
    (st : rates * factors) (output : string * float)
    : result (rates * factors) :=
  let '(total_production, limiting_factors) := st in
  let '(output_item, output_rate) := output in
  current <- Dict.getitem total_production output_item ;;
  v <- round_float
         (current - output_rate * (1 - production_ratio))%float 2 ;;
  let total_production := Dict.set total_production output_item v in
  let limiting_factors :=
    if negb (Dict.mem limiting_factors output_item)
    then Dict.set limiting_factors output_item []
    else limiting_factors in
  let limiting_factors :=
    Dict.set limiting_factors output_item
      (Dict.get_default limiting_factors output_item [] ++ [item]) in
  Ok (total_production, limiting_factors).

(** Lines 83-89, for one facility. *)
Definition limit_facility (item : string) (production_ratio : float)
    (st : rates * factors) (facility : Facility.t)
    : result (rates * factors) :=
  let '(adjusted_inputs, adjusted_outputs) :=
    Facility.get_adjusted_rates facility in
  if existsb (fun '(input_item, _) => String.eqb input_item item)
             adjusted_inputs
  then for_each adjusted_outputs (limit_output item production_ratio) st
  else Ok st.

(** Lines 76-89: the body of the loop over [total_consumption.items()]. *)
Definition propagate_shortage (self : t) (st : rates * factors)
    (entry : string * float) : result (rates * factors) :=
  let '(total_production, limiting_factors) := st in
  let '(item, consumption) := entry in
  if (Dict.get_default total_production item 0 <? consumption)%float then
    q <- PyFloat.truediv (Dict.get_default total_production item 0)
                         consumption ;;
    production_ratio <- round_float q 4 ;;
    let limiting_factors := Dict.set limiting_factors item [] in
    for_each (Dict.values (bases self))
      (fun st base =>
         for_each (Dict.values (Base.facilities base))
                  (limit_facility item production_ratio) st)
      (total_production, limiting_factors)
  else Ok st.

(** Lines 46-72: the two aggregation passes. *)
Definition aggregation_passes (self : t) : result (rates * rates) :=
  raw_production <- raw_production_pass self ;;
  facility_pass self raw_production.

(** Lines 75-89: the loop over [total_consumption.items()]. *)
Definition shortage_pass (self : t) (entries : list (string * float))
    (st : rates * factors) : result (rates * factors) :=
  for_each entries (propagate_shortage self) st.

Definition calculate_production_rates_body (self : t)
    : result (rates * rates * factors) :=
  '(total_consumption, total_production) <- aggregation_passes self ;;
  '(total_production, limiting_factors) <-
    shortage_pass self (Dict.items total_consumption) (total_production, []) ;;
  Ok (total_production, total_consumption, limiting_factors).

Definition calculate_production_rates
    : method (rates * rates * factors) :=
  reading calculate_production_rates_body.

(** [set(production.keys()) | set(consumption.keys())]: each key once. *)
Definition key_union (a b : list string) : list string :=
  nodup string_dec (a ++ b).

Definition pykeys (d : pyvalue) : list string :=
  match d with
  | PyRates r => Dict.keys r
  | PyFactors f => Dict.keys f
  end.

(** [d.get(item, 0)] used as a number: a list is not one. *)
Definition pyget_rate (d : pyvalue) (item : string) : result float :=
  match d with
  | PyRates r => Ok (Dict.get_default r item 0%float)
  | PyFactors f =>
      match Dict.get f item with
      | None => Ok 0%float
      | Some _ => Raise TypeError
      end
  end.

Definition identify_bottlenecks_body (self : t) : result rates :=
  '(p, c, l) <- calculate_production_rates_body self ;;
  '(production, consumption) <- unpack2 [PyRates p; PyRates c; PyFactors l] ;;
  for_each (key_union (pykeys production) (pykeys consumption))
    (fun bottlenecks item =>
       prod_rate <- pyget_rate production item ;;
       cons_rate <- pyget_rate consumption item ;;
       deficit <- round_float (cons_rate - prod_rate)%float 2 ;;
       if (0 <? deficit)%float
       then Ok (Dict.set bottlenecks item deficit)
       else Ok bottlenecks)
    [].

Definition identify_bottlenecks : method rates :=
  reading identify_bottlenecks_body.

Definition calculate_production_rates_for_base_body (base_id : Z) (self : t)
    : result (rates * rates) :=
  match Dict.get (bases self) base_id with
  | None => Ok ([], [])
  | Some base =>
      production <-
        for_each (Dict.values (Base.nodes base)) accumulate_node [] ;;
      '(consumption, production) <-
        for_each (Dict.values (Base.facilities base)) accumulate_facility
                 ([], production) ;;
      Ok (production, consumption)
  end.

Definition calculate_production_rates_for_base (base_id : Z)
    : method (rates * rates) :=
  reading (calculate_production_rates_for_base_body base_id).

End ProductionGraph.

(** ** main.py *)

Module Tracker.


End Tracker.

(** ** ui.py *)

Module UserInterface.

(** What [calculate_possible_recipes] can raise: an exception of the engine
    or OverflowError. *)
Inductive failure : Set :=
| Exn (e : exn)
| OverflowError.

Inductive outcome (A : Type) : Type :=
| Returned (a : A)
| Failed (e : failure).

Arguments Returned {A} a.
Arguments Failed {A} e.

(** [math.floor] of a float: an [int], OverflowError for an infinity,
    ValueError for NaN. *)
Definition py_floor (x : float) : outcome Z :=
  match Prim2SF x with
  | S754_nan => Failed (Exn ValueError)
  | S754_infinity _ => Failed OverflowError
  | S754_zero _ => Returned 0%Z
  | S754_finite s m e =>
      let n := if s then Zneg m else Zpos m in
      Returned (if (0 <=? e)%Z then n * 2 ^ e else n / 2 ^ (- e))%Z
  end.

(** The value of [max_crafts]: [float('inf')] or an [int]. *)
Inductive crafts : Set :=
| Unbounded
| Times (n : Z).

(** [min(max_crafts, crafts)] for an [int] [crafts]. *)
Definition crafts_min (max_crafts : crafts) (c : Z) : crafts :=
  match max_crafts with
  | Unbounded => Times c
  | Times m => if (c <? m)%Z then Times c else Times m
  end.

(** [max_crafts > 0] *)
Definition crafts_positive (max_crafts : crafts) : bool :=
  match max_crafts with
  | Unbounded => true
  | Times n => (0 <? n)%Z
  end.

(** The inner loop of [calculate_possible_recipes] (lines 634-647): the
    two [break]s leave the loop with [max_crafts = 0]. *)
Fixpoint max_crafts_of (net_production : rates) (inputs : item_rates)
    (max_crafts : crafts) : outcome crafts :=
  match inputs with
  | [] => Returned max_crafts
  | (input_item, input_quantity) :: rest =>
      match Dict.get net_production input_item with
      | Some available_quantity =>
          if (0 <? available_quantity)%float then
            match PyFloat.truediv available_quantity input_quantity with
            | Raise e => Failed (Exn e)
            | Ok q =>
                match py_floor q with
                | Failed e => Failed e
                | Returned c =>
                    max_crafts_of net_production rest (crafts_min max_crafts c)
                end
            end
          else Returned (Times 0)
      | None => Returned (Times 0)
      end
  end.

(** The loop over the recipes (lines 632-649). *)
Fixpoint possible_recipes_loop (recipes : list Recipe.t)
    (net_production : rates) (possible_recipes : Dict.t string crafts)
    : outcome (Dict.t string crafts) :=
  match recipes with
  | [] => Returned possible_recipes
  | recipe :: rest =>
      match max_crafts_of net_production (Recipe.inputs recipe) Unbounded with
      | Failed e => Failed e
      | Returned max_crafts =>
          possible_recipes_loop rest net_production
            (if crafts_positive max_crafts
             then Dict.set possible_recipes (Recipe.name recipe) max_crafts
             else possible_recipes)
      end
  end.

Definition calculate_possible_recipes (game_data : GameData.t)
    (net_production : rates) : outcome (Dict.t string crafts) :=
  possible_recipes_loop (GameData.recipes game_data) net_production [].

End UserInterface.

(** ** Worked scenarios *)

Module Scenario.
Import ProductionGraph.
Local Open Scope string_scope.

Definition facility (id : Z) (ins outs : item_rates) : Facility.t :=
  let f := Facility.init id "Constructor" "Recipe" in
  let f := fold_left (fun f '(i, r) => Facility.set_input_item f i r) ins f in
  fold_left (fun f '(i, r) => Facility.set_output_item f i r) outs f.

Definition graph_of (b : Base.t) : t := snd (add_base b init).

(** One Iron Ore node (Normal, 60) and one smelter 30 -> 30. *)
Definition scenario_A : result t :=
  node <- ResourceNode.init 1 "Iron Ore" "Normal" "Miner Mk.1" 60 ;;
  let base := Base.add_node (Base.init 1 "Main Base") node in
  let base := Base.add_facility base
    (facility 1 [("Iron Ore", 30%float)] [("Iron Ingot", 30%float)]) in
  Ok (graph_of base).

(** A -> B -> C with no source of A. *)
Definition chain : t :=
  let base := Base.init 1 "Main Base" in
  let base := Base.add_facility base
    (facility 1 [("A", 10%float)] [("B", 10%float)]) in
  let base := Base.add_facility base
    (facility 2 [("B", 10%float)] [("C", 10%float)]) in
  graph_of base.

(** Facility 1 needs A and B, which nothing produces, and makes C; facility 2
    consumes C and is underclocked to the minimum. *)
Definition starved : t :=
  let base := Base.init 1 "Main Base" in
  let base := Base.add_facility base
    (facility 1 [("A", 10%float); ("B", 10%float)] [("C", 10%float)]) in
  let base := Base.add_facility base
    (Facility.set_clock_speed (facility 2 [("C", 30%float)] []) 0) in
  graph_of base.

End Scenario.

(** * Vocabulary of the statements *)

(** The value [set_clock_speed] stores. *)
Definition clamp_clock (x : float) : float := py_max 0.001 (py_min 250 x).

Definition in_clock_range (c : float) : Prop :=
  (0.001 <=? c) = true /\ (c <=? 250) = true.

(** The value [c] stored for an argument [x] is [x] clamped into
    [0.001, 250]. *)
Definition clamped (x c : float) : Prop :=
  in_clock_range c /\
  ((250 <? x) = true -> c = 250) /\
  ((x <=? 0) = true -> c = 0.001) /\
  ((x <? 0.001) = true -> c = 0.001) /\
  (in_clock_range x -> c = x).

Definition valid_purity (p : string) : Prop :=
  p = "Impure"%string \/ p = "Normal"%string \/ p = "Pure"%string.

(** The purity multiplier as a function of the purity. *)
Definition multiplier (p : string) : float :=
  if String.eqb p "Impure" then 0.5
  else if String.eqb p "Normal" then 1
  else 2.

(** The ways a node comes to exist: the constructor, then any number of
    clock-speed changes. *)
Inductive node_reachable : ResourceNode.t -> Prop :=
| reach_init id rt p mt mr n :
    ResourceNode.init id rt p mt mr = Ok n -> node_reachable n
| reach_set_clock_speed n x n' :
    node_reachable n -> ResourceNode.set_clock_speed n x = Ok n' ->
    node_reachable n'.

(** The ways a facility comes to exist. *)
Inductive facility_reachable : Facility.t -> Prop :=
| freach_init id ft r : facility_reachable (Facility.init id ft r)
| freach_set_input_item f i r :
    facility_reachable f -> facility_reachable (Facility.set_input_item f i r)
| freach_set_output_item f i r :
    facility_reachable f -> facility_reachable (Facility.set_output_item f i r)
| freach_set_clock_speed f x :
    facility_reachable f -> facility_reachable (Facility.set_clock_speed f x)
| freach_toggle_active_state f :
    facility_reachable f -> facility_reachable (Facility.toggle_active_state f)
| freach_update_recipe f recipe :
    facility_reachable f -> facility_reachable (Facility.update_recipe f recipe).

(** A node as the constructor leaves it, for the examples below. *)
Definition iron_node : ResourceNode.t :=
  ResourceNode.mk 1 "Iron Ore" "Normal" "Miner Mk.1" 60 100 60.

Definition scale (clock_speed : float) (entry : string * float)
    : string * float :=
  (fst entry, snd entry * (clock_speed / 100)).

Definition node_entry (n : ResourceNode.t) : string * float :=
  (ResourceNode.resource_type n, ResourceNode.output_rate n).

Definition adjusted_inputs (f : Facility.t) : item_rates :=
  fst (Facility.get_adjusted_rates f).

Definition adjusted_outputs (f : Facility.t) : item_rates :=
  snd (Facility.get_adjusted_rates f).

(** What one base adds to production, in the order the code visits it: its
    nodes, then the outputs of its facilities. *)
Definition base_production_entries (b : Base.t) : item_rates :=
  map node_entry (Dict.values (Base.nodes b))
  ++ flat_map adjusted_outputs (Dict.values (Base.facilities b)).

Definition base_consumption_entries (b : Base.t) : item_rates :=
  flat_map adjusted_inputs (Dict.values (Base.facilities b)).

Definition all_nodes (g : ProductionGraph.t) : list ResourceNode.t :=
  flat_map (fun b => Dict.values (Base.nodes b))
           (Dict.values (ProductionGraph.bases g))
  ++ Dict.values (ProductionGraph.unlinked_nodes g).

Definition all_facilities (g : ProductionGraph.t) : list Facility.t :=
  flat_map (fun b => Dict.values (Base.facilities b))
           (Dict.values (ProductionGraph.bases g)).

Definition production_entries (g : ProductionGraph.t) : item_rates :=
  map node_entry (all_nodes g) ++ flat_map adjusted_outputs (all_facilities g).

Definition consumption_entries (g : ProductionGraph.t) : item_rates :=
  flat_map adjusted_inputs (all_facilities g).

(** The total of resource [r] over a list of entries, starting from [acc]
    ([None]: no total yet): the running total is rounded to two decimals
    after each addition of a rate of [r]. *)
Fixpoint key_total (r : string) (entries : item_rates) (acc : option float)
    : result (option float) :=
  match entries with
  | [] => Ok acc
  | (item, rate) :: rest =>
      if String.eqb item r then
        v <- round_float (match acc with Some a => a | None => 0 end + rate) 2 ;;
        key_total r rest (Some v)
      else key_total r rest acc
  end.

(** Whether facility [f] lists [item] among its adjusted inputs (line 84). *)
Definition lists_input (item : string) (f : Facility.t) : bool :=
  existsb (fun '(input_item, _) => String.eqb input_item item)
          (adjusted_inputs f).

(** The adjusted outputs of every facility of every base that lists [item],
    in the order the code visits them. *)
Definition limited_outputs (g : ProductionGraph.t) (item : string)
    : item_rates :=
  flat_map adjusted_outputs (filter (lists_input item) (all_facilities g)).

(** The entries the loop visits before it reaches the key [item]. *)
Fixpoint entries_before (item : string) (entries : list (string * float))
    : list (string * float) :=
  match entries with
  | [] => []
  | (k, v) :: rest =>
      if String.eqb k item then [] else (k, v) :: entries_before item rest
  end.

(** Whether the pass finds [item] short when it reaches it: its consumption
    total exceeds the production total as the earlier iterations left it. *)
Definition found_short (g : ProductionGraph.t) (item : string) : bool :=
  match ProductionGraph.aggregation_passes g with
  | Ok (c, p0) =>
      match Dict.get c item,
            ProductionGraph.shortage_pass g
              (entries_before item (Dict.items c)) (p0, []) with
      | Some ci, Ok (p, _) => Dict.get_default p item 0 <? ci
      | _, _ => false
      end
  | Raise _ => false
  end.

(** Every output item of every facility has a production total. *)
Definition outputs_covered (g : ProductionGraph.t) (st : rates * factors)
    : Prop :=
  forall o, In o (map fst (flat_map adjusted_outputs (all_facilities g))) ->
            Dict.mem (fst st) o = true.

(** The exceptions of the shortage pass. *)
Definition sweep_exn (e : exn) : Prop :=
  e = InvalidOperation \/ e = ZeroDivisionError.

(** The facilities that are switched on, in the order the code visits them. *)
Definition active_facilities (g : ProductionGraph.t) : list Facility.t :=
  filter Facility.is_active (all_facilities g).

(** One Iron Ore node and one smelter, as values. *)
Definition smelter : Facility.t :=
  Scenario.facility 1 [("Iron Ore"%string, 30)] [("Iron Ingot"%string, 30)].

Definition smelter_base : Base.t :=
  Base.add_facility (Base.add_node (Base.init 1 "Main Base") iron_node) smelter.

Definition smelter_graph : ProductionGraph.t := Scenario.graph_of smelter_base.

(** [facility.toggle_active_state()] on a facility held by a base of the
    graph: the object is changed where it is, under the same keys. *)
Definition with_facility (g : ProductionGraph.t) (b : Base.t)
    (f : Facility.t) : ProductionGraph.t :=
  snd (ProductionGraph.add_base (Base.add_facility b f) g).

(** What the shortage pass keeps true of its state, for a graph whose
    aggregation passes returned consumption [c] and production [p0]: the
    production map has the keys of [p0]; every key of the limiting-factors
    map is a key of [p0] or of [c]; and every factor [x] recorded for a key
    [k] is a key of [c] such that [k] is an output of a facility that lists
    [x]. *)
Definition sweep_keys (g : ProductionGraph.t) (c p0 : rates)
    (st : rates * factors) : Prop :=
  Dict.keys (fst st) = Dict.keys p0 /\
  (forall k, Dict.mem (snd st) k = true ->
     Dict.mem p0 k = true \/ Dict.mem c k = true) /\
  (forall k l x, Dict.get (snd st) k = Some l -> In x l ->
     Dict.mem c x = true /\ In k (map fst (limited_outputs g x))).

(** One call of a method of the catalogue. *)
Inductive catalogue_step : GameData.t -> GameData.t -> Prop :=
| cstep_add_resource_type gd name :
    catalogue_step gd (GameData.add_resource_type gd name)
| cstep_add_miner_type gd name rate :
    catalogue_step gd (GameData.add_miner_type gd name rate)
| cstep_add_building_type gd name :
    catalogue_step gd (GameData.add_building_type gd name)
| cstep_add_recipe gd name bt ins outs :
    catalogue_step gd (GameData.add_recipe gd name bt ins outs)
| cstep_get_next_base_id gd :
    catalogue_step gd (snd (GameData.get_next_base_id gd))
| cstep_get_next_node_id gd :
    catalogue_step gd (snd (GameData.get_next_node_id gd))
| cstep_get_next_facility_id gd :
    catalogue_step gd (snd (GameData.get_next_facility_id gd))
| cstep_delete_resource_type gd name :
    catalogue_step gd (GameData.delete_resource_type gd name)
| cstep_delete_miner_type gd name :
    catalogue_step gd (GameData.delete_miner_type gd name)
| cstep_delete_building_type gd name :
    catalogue_step gd (GameData.delete_building_type gd name)
| cstep_delete_recipe gd name :
    catalogue_step gd (GameData.delete_recipe gd name).

(** Any number of calls, one after the other. *)
Inductive catalogue_steps : GameData.t -> GameData.t -> Prop :=
| csteps_refl gd : catalogue_steps gd gd
| csteps_step gd gd1 gd2 :
    catalogue_steps gd gd1 -> catalogue_step gd1 gd2 -> catalogue_steps gd gd2.

(** Base [b] without the node of id [id]. *)
Definition base_without_node (b : Base.t) (id : Z) : Base.t :=
  Base.mk (Base.base_id b) (Base.name b) (Dict.remove (Base.nodes b) id)
          (Base.facilities b) (Base.storage b).

(** Base [b] without the facility of id [id]. *)
Definition base_without_facility (b : Base.t) (id : Z) : Base.t :=
  Base.mk (Base.base_id b) (Base.name b) (Base.nodes b)
          (Dict.remove (Base.facilities b) id) (Base.storage b).

(** [max_crafts] is an [int] not above [c]. *)
Definition crafts_at_most (m : UserInterface.crafts) (c : Z) : Prop :=
  match m with
  | UserInterface.Unbounded => False
  | UserInterface.Times k => (k <= c)%Z
  end.

(** [m <= acc], where [float('inf')] is above every [int]. *)
Definition crafts_below (m acc : UserInterface.crafts) : Prop :=
  match acc with
  | UserInterface.Unbounded => True
  | UserInterface.Times a => crafts_at_most m a
  end.

(** The input is in the net-production map with a positive quantity, and
    [m] is at most the whole number of times its quantity fits. *)
Definition input_allows (net : rates) (m : UserInterface.crafts)
    (input : string * float) : Prop :=
  exists available c,
    Dict.get net (fst input) = Some available /\
    (0 <? available) = true /\
    UserInterface.py_floor (available / snd input)
    = UserInterface.Returned c /\
    crafts_at_most m c.

(** A catalogue with the Iron Ingot recipe. *)
Definition smelting_catalogue : GameData.t :=
  GameData.add_recipe GameData.init "Iron Ingot" "Smelter"
    [("Iron Ore"%string, 30)] [("Iron Ingot"%string, 30)].

(** * Properties *)

(** ** Float comparisons against the clock-speed bounds *)

Section FloatOrder.

Lemma Prim2SF_250 : Prim2SF 250 = S754_finite false 8796093022208000 (-45).
Proof. reflexivity. Qed.

Lemma Prim2SF_0_001 : Prim2SF 0.001 = S754_finite false 4611686018427388 (-62).
Proof. reflexivity. Qed.

Lemma Prim2SF_0 : Prim2SF 0 = S754_zero false.
Proof. reflexivity. Qed.

Lemma SFcompare_antisym (a b : spec_float) (c : comparison) :
  SFcompare a b = Some c -> SFcompare b a = Some (CompOpp c).
Proof.
  destruct a as [sa|sa| |sa ma ea], b as [sb|sb| |sb mb eb];
    cbn; try discriminate;
    try (destruct sa); try (destruct sb);
    intros E; inversion E; subst; clear E; try reflexivity.
  all: rewrite (Z.compare_antisym ea eb);
    destruct (ea ?= eb)%Z; cbn; try reflexivity;
    rewrite (Pos.compare_cont_antisym ma mb Eq); cbn;
    rewrite ?CompOpp_involutive; reflexivity.
Qed.

Lemma SFcompare_Eq_finite (a : spec_float) (m : positive) (e : Z) :
  SFcompare a (S754_finite false m e) = Some Eq -> a = S754_finite false m e.
Proof.
  destruct a as [sa|sa| |sa ma ea]; cbn; try discriminate;
    try (destruct sa; discriminate).
  destruct sa; try discriminate.
  destruct (Z.compare_spec ea e); try discriminate.
  intros E. inversion E as [E']. apply Pos.compare_eq in E'. congruence.
Qed.

Lemma ltb_antisym (x y : float) : (x <? y) = true -> (y <? x) = false.
Proof.
  rewrite !ltb_spec. unfold SFltb.
  destruct (SFcompare (Prim2SF x) (Prim2SF y)) as [[]|] eqn:E;
    try discriminate.
  intros _. rewrite (SFcompare_antisym _ _ _ E). reflexivity.
Qed.

Lemma ltb_leb (x y : float) : (x <? y) = true -> (x <=? y) = true.
Proof.
  rewrite ltb_spec, leb_spec. unfold SFltb, SFleb.
  destruct (SFcompare (Prim2SF x) (Prim2SF y)) as [[]|];
    intros; try discriminate; reflexivity.
Qed.

(** [leb] without [ltb] is equality, against a positive finite bound. *)
Lemma leb_not_ltb_eq (x c : float) (m : positive) (e : Z) :
  Prim2SF c = S754_finite false m e ->
  ((x <=? c) = true -> (x <? c) = false -> x = c) /\
  ((c <=? x) = true -> (c <? x) = false -> x = c).
Proof.
  intros Hc. rewrite !ltb_spec, !leb_spec, Hc. unfold SFltb, SFleb. split.
  - destruct (SFcompare (Prim2SF x) (S754_finite false m e)) as [[]|] eqn:E;
      try discriminate.
    intros _ _. apply SFcompare_Eq_finite in E.
    apply Prim2SF_inj. congruence.
  - destruct (SFcompare (S754_finite false m e) (Prim2SF x)) as [[]|] eqn:E;
      try discriminate.
    intros _ _. apply SFcompare_antisym in E. cbn [CompOpp] in E.
    apply SFcompare_Eq_finite in E. apply Prim2SF_inj. congruence.
Qed.

Lemma ltb_0_001_250 (x : float) : (x <? 0.001) = true -> (x <? 250) = true.
Proof.
  rewrite !ltb_spec, Prim2SF_250, Prim2SF_0_001.
  destruct (Prim2SF x) as [s|s| |s m e];
    cbv beta iota delta [SFltb SFcompare]; try (destruct s);
    try discriminate; try reflexivity.
  destruct (Z.compare_spec e (-62)), (Z.compare_spec e (-45));
    intros; try discriminate; try reflexivity; lia.
Qed.

Lemma leb_0_ltb_0_001 (x : float) : (x <=? 0) = true -> (x <? 0.001) = true.
Proof.
  rewrite ltb_spec, leb_spec, Prim2SF_0, Prim2SF_0_001.
  destruct (Prim2SF x) as [s|s| |s m e];
    cbv beta iota delta [SFltb SFleb SFcompare]; try (destruct s);
    try discriminate; try reflexivity.
Qed.

End FloatOrder.

Lemma clamp_clock_range (x : float) : in_clock_range (clamp_clock x).
Proof.
  unfold clamp_clock, py_min, py_max, in_clock_range.
  destruct (x <? 250) eqn:Hx.
  - destruct (0.001 <? x) eqn:Hl.
    + split; apply ltb_leb; assumption.
    + split; reflexivity.
  - split; reflexivity.
Qed.

Lemma clamp_clock_above (x : float) : (250 <? x) = true -> clamp_clock x = 250.
Proof.
  intros H. unfold clamp_clock, py_min.
  rewrite (ltb_antisym _ _ H). reflexivity.
Qed.

Lemma clamp_clock_below (x : float) :
  (x <? 0.001) = true -> clamp_clock x = 0.001.
Proof.
  intros H. unfold clamp_clock, py_min, py_max.
  rewrite (ltb_0_001_250 _ H), (ltb_antisym _ _ H). reflexivity.
Qed.

Lemma clamp_clock_inside (x : float) : in_clock_range x -> clamp_clock x = x.
Proof.
  intros [Hl Hu]. unfold clamp_clock, py_min, py_max.
  destruct (x <? 250) eqn:Hx.
  - destruct (0.001 <? x) eqn:Hl'; [reflexivity|].
    symmetry. apply (proj2 (leb_not_ltb_eq x 0.001 _ _ Prim2SF_0_001)); assumption.
  - replace (0.001 <? 250) with true by reflexivity.
    symmetry. apply (proj1 (leb_not_ltb_eq x 250 _ _ Prim2SF_250)); assumption.
Qed.

(** ** Loops and dictionaries *)

Section Loops.
Context {A B S : Type}.

Lemma for_each_app (xs ys : list A) (body : S -> A -> result S) (s : S) :
  for_each (xs ++ ys) body s = (s' <- for_each xs body s ;; for_each ys body s').
Proof.
  revert s. induction xs as [|x xs IH]; intros s; cbn; [reflexivity|].
  destruct (body s x); cbn; [apply IH | reflexivity].
Qed.

Lemma for_each_ext (xs : list A) (f g : S -> A -> result S) (s : S) :
  (forall s x, In x xs -> f s x = g s x) ->
  for_each xs f s = for_each xs g s.
Proof.
  revert s. induction xs as [|x xs IH]; intros s E; cbn; [reflexivity|].
  rewrite (E s x (or_introl eq_refl)).
  destruct (g s x); cbn; [|reflexivity].
  apply IH. intros s' y Hy. apply E. right. exact Hy.
Qed.

Lemma for_each_map (g : B -> A) (xs : list B) (body : S -> A -> result S)
    (s : S) :
  for_each (map g xs) body s = for_each xs (fun s x => body s (g x)) s.
Proof.
  revert s. induction xs as [|x xs IH]; intros s; cbn; [reflexivity|].
  destruct (body s (g x)); cbn; [apply IH | reflexivity].
Qed.

(** A loop nest is one loop over the concatenation of the inner lists. *)
Lemma for_each_flat_map (g : B -> list A) (xs : list B)
    (body : S -> A -> result S) (s : S) :
  for_each (flat_map g xs) body s
  = for_each xs (fun s x => for_each (g x) body s) s.
Proof.
  revert s. induction xs as [|x xs IH]; intros s; cbn; [reflexivity|].
  rewrite for_each_app.
  destruct (for_each (g x) body s); cbn; [apply IH | reflexivity].
Qed.

End Loops.

Section DictFacts.
Context {K V : Type} `{Key K}.

Lemma key_eqb_refl (k : K) : key_eqb k k = true.
Proof. apply key_eqb_eq. reflexivity. Qed.

Lemma key_eqb_neq (a b : K) : a <> b -> key_eqb a b = false.
Proof.
  intros N. destruct (key_eqb a b) eqn:E; [|reflexivity].
  apply key_eqb_eq in E. contradiction.
Qed.

Lemma key_eq_dec (a b : K) : {a = b} + {a <> b}.
Proof.
  destruct (key_eqb a b) eqn:E.
  - left. apply key_eqb_eq. exact E.
  - right. intros ->. rewrite key_eqb_refl in E. discriminate.
Qed.

Lemma get_set_same (d : Dict.t K V) (k : K) (v : V) :
  Dict.get (Dict.set d k v) k = Some v.
Proof.
  induction d as [|[k' v'] d IH]; cbn.
  - rewrite key_eqb_refl. reflexivity.
  - destruct (key_eqb k' k) eqn:E; cbn; rewrite E; [reflexivity | exact IH].
Qed.

Lemma get_set_other (d : Dict.t K V) (k k' : K) (v : V) :
  k <> k' -> Dict.get (Dict.set d k v) k' = Dict.get d k'.
Proof.
  intros N. induction d as [|[k0 v0] d IH]; cbn.
  - rewrite (key_eqb_neq _ _ N). reflexivity.
  - destruct (key_eqb k0 k) eqn:E; cbn.
    + apply key_eqb_eq in E. subst k0. rewrite (key_eqb_neq _ _ N). reflexivity.
    + destruct (key_eqb k0 k'); [reflexivity | exact IH].
Qed.

Lemma get_set (d : Dict.t K V) (k k' : K) (v : V) :
  Dict.get (Dict.set d k v) k'
  = if key_eqb k k' then Some v else Dict.get d k'.
Proof.
  destruct (key_eq_dec k k') as [->|N].
  - rewrite key_eqb_refl. apply get_set_same.
  - rewrite (key_eqb_neq _ _ N). apply get_set_other. exact N.
Qed.

Lemma mem_set (d : Dict.t K V) (k k' : K) (v : V) :
  Dict.mem (Dict.set d k v) k' = key_eqb k k' || Dict.mem d k'.
Proof.
  unfold Dict.mem. rewrite get_set. destruct (key_eqb k k'); reflexivity.
Qed.

Lemma get_In (d : Dict.t K V) (k : K) (v : V) :
  Dict.get d k = Some v -> In (k, v) (Dict.items d).
Proof.
  induction d as [|[k' v'] d IH]; cbn; [discriminate|].
  destruct (key_eqb k' k) eqn:E.
  - apply key_eqb_eq in E. intros [= ->]. left. congruence.
  - intros G. right. apply IH. exact G.
Qed.

Lemma get_None_keys (d : Dict.t K V) (k : K) :
  Dict.get d k = None -> ~ In k (Dict.keys d).
Proof.
  induction d as [|[k' v'] d IH]; cbn; [tauto|].
  destruct (key_eqb k' k) eqn:E; [discriminate|].
  intros G [->|I]; [rewrite key_eqb_refl in E; discriminate|].
  exact (IH G I).
Qed.

Lemma keys_set (d : Dict.t K V) (k : K) (v : V) :
  Dict.keys (Dict.set d k v)
  = if Dict.mem d k then Dict.keys d else Dict.keys d ++ [k].
Proof.
  unfold Dict.mem. induction d as [|[k' v'] d IH]; cbn; [reflexivity|].
  destruct (key_eqb k' k) eqn:E; cbn; [reflexivity|].
  unfold Dict.keys in IH. rewrite IH.
  destruct (Dict.get d k); reflexivity.
Qed.

(** A dictionary built by assignments never holds a key twice. *)
Lemma NoDup_keys_set (d : Dict.t K V) (k : K) (v : V) :
  NoDup (Dict.keys d) -> NoDup (Dict.keys (Dict.set d k v)).
Proof.
  intros ND. rewrite keys_set. unfold Dict.mem.
  destruct (Dict.get d k) eqn:G; [exact ND|].
  apply NoDup_app; [exact ND | repeat constructor; cbn; tauto |].
  intros x I [<-|[]]. exact (get_None_keys _ _ G I).
Qed.

End DictFacts.

(** ** Clock speed and rates of nodes and facilities *)

Lemma clamp_clock_clamped (x : float) : clamped x (clamp_clock x).
Proof.
  repeat split.
  - apply clamp_clock_range.
  - apply clamp_clock_range.
  - apply clamp_clock_above.
  - intros Hx. apply clamp_clock_below, leb_0_ltb_0_001, Hx.
  - apply clamp_clock_below.
  - apply clamp_clock_inside.
Qed.

Lemma purity_multiplier_valid (p : string) :
  valid_purity p ->
  Dict.getitem ResourceNode.purity_multiplier p = Ok (multiplier p).
Proof. intros [->|[->| ->]]; reflexivity. Qed.

Lemma init_inv id rt p mt mr n :
  ResourceNode.init id rt p mt mr = Ok n ->
  exists m, Dict.getitem ResourceNode.purity_multiplier p = Ok m /\
    n = ResourceNode.mk id rt p mt mr 100 (m * mr * (100 / 100)).
Proof.
  unfold ResourceNode.init, ResourceNode.calculate_output_rate.
  cbn [ResourceNode.node_id ResourceNode.resource_type ResourceNode.purity
       ResourceNode.miner_type ResourceNode.miner_rate
       ResourceNode.clock_speed ResourceNode.output_rate].
  destruct (Dict.getitem ResourceNode.purity_multiplier p) as [m|e];
    cbn [bind]; [|intros E; discriminate E].
  intros [= <-]. exists m. split; reflexivity.
Qed.

Lemma set_clock_speed_inv n x n' :
  ResourceNode.set_clock_speed n x = Ok n' ->
  exists m,
    Dict.getitem ResourceNode.purity_multiplier (ResourceNode.purity n) = Ok m /\
    n' = ResourceNode.mk (ResourceNode.node_id n) (ResourceNode.resource_type n)
           (ResourceNode.purity n) (ResourceNode.miner_type n)
           (ResourceNode.miner_rate n) (clamp_clock x)
           (m * ResourceNode.miner_rate n * (clamp_clock x / 100)).
Proof.
  unfold ResourceNode.set_clock_speed, ResourceNode.calculate_output_rate.
  cbn [ResourceNode.node_id ResourceNode.resource_type ResourceNode.purity
       ResourceNode.miner_type ResourceNode.miner_rate
       ResourceNode.clock_speed ResourceNode.output_rate].
  destruct (Dict.getitem ResourceNode.purity_multiplier (ResourceNode.purity n))
    as [m|e]; cbn [bind]; [|intros E; discriminate E].
  intros [= <-]. exists m. split; reflexivity.
Qed.

Lemma getitem_purity_valid p m :
  Dict.getitem ResourceNode.purity_multiplier p = Ok m -> valid_purity p.
Proof.
  unfold Dict.getitem, ResourceNode.purity_multiplier, valid_purity.
  cbv beta iota delta [Dict.get key_eqb string_Key].
  destruct (String.eqb "Impure" p) eqn:E1;
    [apply String.eqb_eq in E1; auto|].
  destruct (String.eqb "Normal" p) eqn:E2;
    [apply String.eqb_eq in E2; auto|].
  destruct (String.eqb "Pure" p) eqn:E3;
    [apply String.eqb_eq in E3; auto|].
  intros E; discriminate E.
Qed.

Lemma node_reachable_valid n : node_reachable n -> valid_purity (ResourceNode.purity n).
Proof.
  induction 1 as [id rt p mt mr n E | n x n' _ IH E].
  - destruct (init_inv _ _ _ _ _ _ E) as (m & G & ->). cbn.
    exact (getitem_purity_valid _ _ G).
  - destruct (set_clock_speed_inv _ _ _ E) as (m & G & ->). cbn. exact IH.
Qed.

Lemma node_reachable_range n :
  node_reachable n -> in_clock_range (ResourceNode.clock_speed n).
Proof.
  destruct 1 as [id rt p mt mr n E | n x n' _ E].
  - destruct (init_inv _ _ _ _ _ _ E) as (m & G & ->). cbn. split; reflexivity.
  - destruct (set_clock_speed_inv _ _ _ E) as (m & G & ->). cbn.
    apply clamp_clock_range.
Qed.

Lemma facility_reachable_range f :
  facility_reachable f -> in_clock_range (Facility.clock_speed f).
Proof.
  induction 1; cbn; try assumption.
  - split; reflexivity.
  - apply clamp_clock_range.
  - split; reflexivity.
Qed.

Lemma set_clock_speed_valid n x :
  valid_purity (ResourceNode.purity n) ->
  exists n', ResourceNode.set_clock_speed n x = Ok n' /\
    ResourceNode.clock_speed n' = clamp_clock x /\
    ResourceNode.purity n' = ResourceNode.purity n /\
    ResourceNode.miner_rate n' = ResourceNode.miner_rate n /\
    ResourceNode.output_rate n'
    = multiplier (ResourceNode.purity n) * ResourceNode.miner_rate n
      * (clamp_clock x / 100).
Proof.
  intros V.
  unfold ResourceNode.set_clock_speed, ResourceNode.calculate_output_rate.
  cbn [ResourceNode.node_id ResourceNode.resource_type ResourceNode.purity
       ResourceNode.miner_type ResourceNode.miner_rate
       ResourceNode.clock_speed ResourceNode.output_rate].
  rewrite (purity_multiplier_valid _ V). cbn [bind].
  eexists. split; [reflexivity|]. cbn. repeat split; reflexivity.
Qed.

Lemma iron_node_init :
  ResourceNode.init 1 "Iron Ore" "Normal" "Miner Mk.1" 60 = Ok iron_node.
Proof. reflexivity. Qed.

(** C5: for a node whose purity is Impure, Normal or Pure, the cached output
    rate is multiplier(purity) * miner_rate * (clock_speed / 100), evaluated
    in binary64 in that order, with multiplier 0.5, 1 and 2; at construction
    the clock is 100, and set_clock_speed stores the clamped clock (which is
    in [0.001, 250]) and recomputes the cached rate from it. *)
Theorem output_rate_formula (id : Z) (rt p mt : string) (mr : float) :
  valid_purity p ->
  (multiplier "Impure" = 0.5 /\ multiplier "Normal" = 1 /\ multiplier "Pure" = 2)
  /\ (exists n, ResourceNode.init id rt p mt mr = Ok n /\
        ResourceNode.clock_speed n = 100 /\
        ResourceNode.output_rate n
        = multiplier p * mr * (ResourceNode.clock_speed n / 100))
  /\ (forall n, node_reachable n ->
        ResourceNode.purity n = p -> ResourceNode.miner_rate n = mr ->
        ResourceNode.output_rate n
        = multiplier p * mr * (ResourceNode.clock_speed n / 100))
  /\ (forall n x, node_reachable n ->
        ResourceNode.purity n = p -> ResourceNode.miner_rate n = mr ->
        exists n', ResourceNode.set_clock_speed n x = Ok n' /\
          in_clock_range (ResourceNode.clock_speed n') /\
          ResourceNode.output_rate n'
          = multiplier p * mr * (ResourceNode.clock_speed n' / 100)).
Proof.
  intros V. split; [repeat split|]. split; [|split].
  - unfold ResourceNode.init, ResourceNode.calculate_output_rate.
    cbn [ResourceNode.node_id ResourceNode.resource_type ResourceNode.purity
         ResourceNode.miner_type ResourceNode.miner_rate
         ResourceNode.clock_speed ResourceNode.output_rate].
    rewrite (purity_multiplier_valid _ V). cbn [bind].
    eexists. split; [reflexivity|]. split; reflexivity.
  - intros n R. destruct R as [id' rt' p' mt' mr' n E | n0 x n' R E].
    + destruct (init_inv _ _ _ _ _ _ E) as (m & G & ->). cbn.
      intros -> ->. rewrite (purity_multiplier_valid _ V) in G.
      injection G as <-. reflexivity.
    + destruct (set_clock_speed_inv _ _ _ E) as (m & G & ->). cbn.
      intros Hp ->. rewrite Hp, (purity_multiplier_valid _ V) in G.
      injection G as <-. reflexivity.
  - intros n x R Hp Hm.
    destruct (set_clock_speed_valid n x) as (n' & E & Hc & _ & _ & Ho).
    { rewrite Hp. exact V. }
    exists n'. split; [exact E|]. split.
    + rewrite Hc. apply clamp_clock_range.
    + rewrite Ho, Hc, Hp, Hm. reflexivity.
Qed.

Lemma output_rate_formula_witness :
  valid_purity "Normal" /\
  exists n', ResourceNode.set_clock_speed iron_node 150 = Ok n' /\
    in_clock_range (ResourceNode.clock_speed n') /\
    ResourceNode.output_rate n'
    = multiplier "Normal" * 60 * (ResourceNode.clock_speed n' / 100).
Proof.
  assert (V : valid_purity "Normal") by (right; left; reflexivity).
  split; [exact V|].
  apply (proj2 (proj2 (proj2
           (output_rate_formula 1 "Iron Ore" "Normal" "Miner Mk.1" 60 V)))).
  - exact (reach_init _ _ _ _ _ _ iron_node_init).
  - reflexivity.
  - reflexivity.
Defined.

(** C6: the stored clock speed of every node and facility is in
    [0.001, 250]: it is 100 at construction, and set_clock_speed(x) stores
    250 when x > 250, 0.001 when x <= 0 or x < 0.001, and x when x is in
    range; on a facility it cannot raise, and on a node that the constructor
    accepted it does not raise either. *)
Theorem clock_speed_always_clamped :
  (forall n, node_reachable n -> in_clock_range (ResourceNode.clock_speed n))
  /\ (forall f, facility_reachable f -> in_clock_range (Facility.clock_speed f))
  /\ (forall id rt p mt mr n,
        ResourceNode.init id rt p mt mr = Ok n -> ResourceNode.clock_speed n = 100)
  /\ (forall id ft r, Facility.clock_speed (Facility.init id ft r) = 100)
  /\ (forall f x,
        clamped x (Facility.clock_speed (Facility.set_clock_speed f x)))
  /\ (forall n x, node_reachable n ->
        exists n', ResourceNode.set_clock_speed n x = Ok n' /\
          clamped x (ResourceNode.clock_speed n')).
Proof.
  split; [exact node_reachable_range|].
  split; [exact facility_reachable_range|].
  split; [|split; [reflexivity|split]].
  - intros id rt p mt mr n E.
    destruct (init_inv _ _ _ _ _ _ E) as (m & _ & ->). reflexivity.
  - intros f x. cbn. apply clamp_clock_clamped.
  - intros n x R.
    destruct (set_clock_speed_valid n x (node_reachable_valid _ R))
      as (n' & E & Hc & _).
    exists n'. split; [exact E|]. rewrite Hc. apply clamp_clock_clamped.
Qed.

Lemma clock_speed_always_clamped_witness :
  node_reachable iron_node /\
  exists n', ResourceNode.set_clock_speed iron_node 300 = Ok n' /\
    clamped 300 (ResourceNode.clock_speed n').
Proof.
  assert (R : node_reachable iron_node)
    by exact (reach_init _ _ _ _ _ _ iron_node_init).
  split; [exact R|].
  exact (proj2 (proj2 (proj2 (proj2 (proj2 clock_speed_always_clamped))))
           iron_node 300 R).
Defined.

(** ** Facility.get_adjusted_rates *)

Lemma adjusted_map (f : Facility.t) :
  Facility.is_active f = true ->
  Facility.get_adjusted_rates f
  = (map (scale (Facility.clock_speed f)) (Facility.input_items f),
     map (scale (Facility.clock_speed f)) (Facility.output_items f)).
Proof.
  intros Ha. unfold Facility.get_adjusted_rates. rewrite Ha. cbn.
  f_equal; apply map_ext; intros [i r]; reflexivity.
Qed.

(** C8: an inactive facility returns two empty lists whatever its clock
    speed and stored items; an active one returns, position by position,
    every stored entry with its rate multiplied by clock_speed / 100, so the
    lists keep their length, order and duplicates. *)
Theorem get_adjusted_rates_spec (f : Facility.t) :
  (Facility.is_active f = false -> Facility.get_adjusted_rates f = ([], []))
  /\ (Facility.is_active f = true ->
      let '(adjusted_inputs, adjusted_outputs) := Facility.get_adjusted_rates f in
      List.length adjusted_inputs = List.length (Facility.input_items f) /\
      List.length adjusted_outputs = List.length (Facility.output_items f) /\
      forall k,
        nth_error adjusted_inputs k
        = option_map (fun e => (fst e, snd e * (Facility.clock_speed f / 100)))
                     (nth_error (Facility.input_items f) k) /\
        nth_error adjusted_outputs k
        = option_map (fun e => (fst e, snd e * (Facility.clock_speed f / 100)))
                     (nth_error (Facility.output_items f) k)).
Proof.
  split.
  - intros Ha. unfold Facility.get_adjusted_rates. rewrite Ha. reflexivity.
  - intros Ha. rewrite (adjusted_map _ Ha).
    rewrite !length_map. repeat split; apply nth_error_map.
Qed.

Lemma get_adjusted_rates_spec_witness :
  Facility.get_adjusted_rates
    (Facility.toggle_active_state
       (Scenario.facility 1 [("Iron Ore"%string, 30)] [("Iron Ingot"%string, 30)]))
  = ([], [])
  /\ nth_error
       (fst (Facility.get_adjusted_rates
          (Facility.set_clock_speed
             (Scenario.facility 1 [("Iron Ore"%string, 30)]
                                  [("Iron Ingot"%string, 30)]) 50))) 0
     = Some ("Iron Ore"%string, 30 * (50 / 100)).
Proof.
  split.
  - apply (proj1 (get_adjusted_rates_spec _)). reflexivity.
  - pose proof (proj2 (get_adjusted_rates_spec
      (Facility.set_clock_speed
         (Scenario.facility 1 [("Iron Ore"%string, 30)]
                              [("Iron Ingot"%string, 30)]) 50)) eq_refl) as W.
    destruct (Facility.get_adjusted_rates _) as [ins outs].
    destruct W as (_ & _ & W). exact (proj1 (W 0%nat)).
Defined.

(** ** Queries on a graph *)

(** C10: for a base_id that is not a key of the bases, the per-base query
    returns two empty maps, raises nothing and leaves the graph as it was. *)
Theorem unknown_base_gives_empty_maps (g : ProductionGraph.t) (base_id : Z) :
  Dict.mem (ProductionGraph.bases g) base_id = false ->
  ProductionGraph.calculate_production_rates_for_base base_id g
  = (Ok ([], []), g).
Proof.
  unfold ProductionGraph.calculate_production_rates_for_base,
    ProductionGraph.reading,
    ProductionGraph.calculate_production_rates_for_base_body, Dict.mem.
  destruct (Dict.get (ProductionGraph.bases g) base_id);
    [discriminate | reflexivity].
Qed.

Lemma unknown_base_gives_empty_maps_witness :
  Dict.mem (ProductionGraph.bases Scenario.chain) 7%Z = false /\
  ProductionGraph.calculate_production_rates_for_base 7 Scenario.chain
  = (Ok ([], []), Scenario.chain).
Proof.
  split; [reflexivity|].
  apply unknown_base_gives_empty_maps. reflexivity.
Defined.

(** C2: identify_bottlenecks unpacks the three maps returned by
    calculate_production_rates into two names, so on every graph it raises:
    ValueError when calculate_production_rates returns, and otherwise the
    exception of calculate_production_rates.  On the chain A -> B -> C, whose
    deficits are 10 for A and 10 for B, it raises ValueError. *)
Theorem identify_bottlenecks_raises :
  (forall g : ProductionGraph.t,
     fst (ProductionGraph.identify_bottlenecks g)
     = match fst (ProductionGraph.calculate_production_rates g) with
       | Ok _ => Raise ValueError
       | Raise e => Raise e
       end)
  /\ fst (ProductionGraph.identify_bottlenecks Scenario.chain)
     = Raise ValueError.
Proof.
  split; [|vm_compute; reflexivity].
  intros g. cbn. unfold ProductionGraph.identify_bottlenecks_body.
  destruct (ProductionGraph.calculate_production_rates_body g)
    as [[[p c] l]|e]; reflexivity.
Qed.

(** C7: on the starved graph the production total of C is cut twice, to
    -10, while the consumption total of C rounds to 0.0; the comparison
    0.0 > -10.0 enters the branch and the division raises
    ZeroDivisionError. *)
Theorem division_by_zero_reached :
  fst (ProductionGraph.calculate_production_rates Scenario.starved)
  = Raise ZeroDivisionError
  /\ ProductionGraph.aggregation_passes Scenario.starved
     = Ok ([("A"%string, 10); ("B"%string, 10); ("C"%string, 0)],
           [("C"%string, 10)]).
Proof. split; vm_compute; reflexivity. Qed.

(** ** The aggregation passes *)

Lemma accumulate_facility_unfold (c p : rates) (f : Facility.t) :
  accumulate_facility (c, p) f
  = (c' <- for_each (adjusted_inputs f) accumulate_item c ;;
     p' <- for_each (adjusted_outputs f) accumulate_item p ;;
     Ok (c', p')).
Proof.
  unfold accumulate_facility, adjusted_inputs, adjusted_outputs.
  destruct (Facility.get_adjusted_rates f); reflexivity.
Qed.

(** The interleaved consumption/production loop over facilities succeeds
    exactly when the two loops taken apart succeed, with the same totals. *)
Lemma facility_loop_split (fs : list Facility.t) (c p c' p' : rates) :
  for_each fs accumulate_facility (c, p) = Ok (c', p')
  <-> for_each (flat_map adjusted_inputs fs) accumulate_item c = Ok c'
      /\ for_each (flat_map adjusted_outputs fs) accumulate_item p = Ok p'.
Proof.
  revert c p. induction fs as [|f fs IH]; intros c p; cbn [for_each flat_map].
  - split; [intros [= -> ->]; split; reflexivity | intros [[= ->] [= ->]]; reflexivity].
  - rewrite accumulate_facility_unfold, !for_each_app.
    destruct (for_each (adjusted_inputs f) accumulate_item c) as [c1|e]; cbn.
    + destruct (for_each (adjusted_outputs f) accumulate_item p) as [p1|e]; cbn.
      * apply IH.
      * split; [discriminate | intros [_ E]; discriminate E].
    + split; [discriminate | intros [E _]; discriminate E].
Qed.

Lemma node_loop_entries (ns : list ResourceNode.t) (raw : rates) :
  for_each ns accumulate_node raw
  = for_each (map node_entry ns) accumulate_item raw.
Proof. rewrite for_each_map. reflexivity. Qed.

Lemma raw_production_pass_entries (g : ProductionGraph.t) :
  ProductionGraph.raw_production_pass g
  = for_each (map node_entry (all_nodes g)) accumulate_item [].
Proof.
  unfold ProductionGraph.raw_production_pass, all_nodes.
  rewrite <- node_loop_entries, for_each_app, for_each_flat_map. reflexivity.
Qed.

Lemma facility_pass_facilities (g : ProductionGraph.t) (raw : rates) :
  ProductionGraph.facility_pass g raw
  = for_each (all_facilities g) accumulate_facility ([], raw).
Proof.
  unfold ProductionGraph.facility_pass, all_facilities.
  rewrite for_each_flat_map. reflexivity.
Qed.

Lemma aggregation_passes_split (g : ProductionGraph.t) (c p : rates) :
  ProductionGraph.aggregation_passes g = Ok (c, p)
  <-> for_each (consumption_entries g) accumulate_item [] = Ok c
      /\ for_each (production_entries g) accumulate_item [] = Ok p.
Proof.
  unfold ProductionGraph.aggregation_passes, production_entries,
    consumption_entries.
  rewrite raw_production_pass_entries, for_each_app.
  destruct (for_each (map node_entry (all_nodes g)) accumulate_item [])
    as [raw|e]; cbn.
  - rewrite facility_pass_facilities. apply facility_loop_split.
  - split; [discriminate | intros [_ E]; discriminate E].
Qed.

Lemma base_rates_split (b : Base.t) (c p : rates) :
  (production <-
     for_each (Dict.values (Base.nodes b)) accumulate_node [] ;;
   '(consumption, production) <-
     for_each (Dict.values (Base.facilities b)) accumulate_facility
              ([], production) ;;
   Ok (production, consumption)) = Ok (p, c)
  <-> for_each (base_production_entries b) accumulate_item [] = Ok p
      /\ for_each (base_consumption_entries b) accumulate_item [] = Ok c.
Proof.
  unfold base_production_entries, base_consumption_entries.
  rewrite node_loop_entries, for_each_app.
  destruct (for_each (map node_entry (Dict.values (Base.nodes b)))
              accumulate_item []) as [raw|e]; cbn.
  - destruct (for_each (Dict.values (Base.facilities b)) accumulate_facility
                ([], raw)) as [[c1 p1]|e] eqn:E; cbn.
    + apply facility_loop_split in E. destruct E as [Ec Ep].
      rewrite Ec, Ep. split; [intros [= -> ->] | intros [[= ->] [= ->]]]; auto.
    + split; [discriminate|]. intros [Ep Ec].
      assert (F : for_each (Dict.values (Base.facilities b))
                    accumulate_facility ([], raw) = Ok (c, p))
        by (apply facility_loop_split; split; assumption).
      rewrite F in E. discriminate E.
  - split; [discriminate | intros [E _]; discriminate E].
Qed.

(** Resource by resource, a loop of [accumulate] computes [key_total]. *)
Lemma accumulate_items_key (es : item_rates) (d d' : rates) (r : string) :
  for_each es accumulate_item d = Ok d' ->
  key_total r es (Dict.get d r) = Ok (Dict.get d' r).
Proof.
  revert d. induction es as [|[item rate] es IH]; intros d; cbn [for_each key_total].
  - intros [= ->]. reflexivity.
  - unfold accumulate_item, accumulate, Dict.get_default.
    destruct (String.eqb_spec item r) as [->|N].
    + destruct (round_float _ 2) as [v|e]; cbn; [|discriminate].
      intros E. apply IH in E. rewrite get_set_same in E. exact E.
    + destruct (round_float _ 2) as [v|e]; cbn; [|discriminate].
      intros E. apply IH in E. rewrite (get_set_other _ _ _ _ N) in E. exact E.
Qed.

(** And it raises only if the total of some resource does. *)
Lemma accumulate_items_total (es : item_rates) (d : rates) :
  (forall r, exists v, key_total r es (Dict.get d r) = Ok v) ->
  exists d', for_each es accumulate_item d = Ok d'.
Proof.
  revert d. induction es as [|[item rate] es IH]; intros d Hk; cbn [for_each].
  - eexists. reflexivity.
  - unfold accumulate_item, accumulate, Dict.get_default.
    destruct (Hk item) as [v0 H0]. cbn [key_total] in H0.
    rewrite String.eqb_refl in H0.
    destruct (round_float _ 2) as [v|e] eqn:Er; cbn in *; [|discriminate].
    apply IH. intros r. destruct (Hk r) as [vr Hr]. cbn [key_total] in Hr.
    rewrite get_set. cbn [key_eqb string_Key].
    destruct (String.eqb item r) eqn:E.
    + apply String.eqb_eq in E. subst r. rewrite Er in Hr. cbn in Hr. eauto.
    + eauto.
Qed.

(** C3: in the aggregation passes every production and consumption total
    is the running total of its resource, rounded to two decimals after each
    single addition of a node's output rate or a facility's adjusted rate
    ([key_total]); the rounding is half-up (0.005 gives 0.01, 0.015 gives
    0.02, 0.025 gives 0.03, 0.004 gives 0); and for one Iron Ore node (Normal,
    60, clock 100) with one smelter (Iron Ore 30 -> Iron Ingot 30) the result
    is production {Iron Ore: 60, Iron Ingot: 30}, consumption {Iron Ore: 30}. *)
Theorem aggregation_rounds_after_each_addition :
  (forall g c p,
     ProductionGraph.aggregation_passes g = Ok (c, p) ->
     forall r,
       key_total r (production_entries g) None = Ok (Dict.get p r) /\
       key_total r (consumption_entries g) None = Ok (Dict.get c r))
  /\ (round_float 0.005 2 = Ok 0.01 /\ round_float 0.015 2 = Ok 0.02 /\
      round_float 0.025 2 = Ok 0.03 /\ round_float 0.004 2 = Ok 0)
  /\ (g <- Scenario.scenario_A ;;
      fst (ProductionGraph.calculate_production_rates g))
     = Ok ([("Iron Ore"%string, 60); ("Iron Ingot"%string, 30)],
           [("Iron Ore"%string, 30)], []).
Proof.
  split; [|split; [repeat split; vm_compute; reflexivity
                  | vm_compute; reflexivity]].
  intros g c p E r. apply aggregation_passes_split in E. destruct E as [Ec Ep].
  split.
  - exact (accumulate_items_key _ _ _ r Ep).
  - exact (accumulate_items_key _ _ _ r Ec).
Qed.

Lemma aggregation_rounds_after_each_addition_witness :
  ProductionGraph.aggregation_passes Scenario.chain
  = Ok ([("A"%string, 10); ("B"%string, 10)], [("B"%string, 10); ("C"%string, 10)])
  /\ key_total "B" (production_entries Scenario.chain) None = Ok (Some 10).
Proof.
  assert (E : ProductionGraph.aggregation_passes Scenario.chain
    = Ok ([("A"%string, 10); ("B"%string, 10)],
          [("B"%string, 10); ("C"%string, 10)])) by (vm_compute; reflexivity).
  split; [exact E|].
  exact (proj1 (proj1 aggregation_rounds_after_each_addition _ _ _ E "B"%string)).
Defined.

(** C4: the per-base query of a base [b] depends on [b] alone (any graph
    holding [b] under that id gives the same answer, whatever its other bases
    and unlinked nodes); it returns exactly when the rounded sums of [b]'s
    own entries exist, and then every production total is the rounded sum of
    [b]'s node output rates followed by its facilities' adjusted output
    rates, and every consumption total the rounded sum of its facilities'
    adjusted input rates: no shortage discount is applied. *)
Theorem base_rates_are_local (g : ProductionGraph.t) (base_id : Z) (b : Base.t) :
  Dict.get (ProductionGraph.bases g) base_id = Some b ->
  (forall g', Dict.get (ProductionGraph.bases g') base_id = Some b ->
     fst (ProductionGraph.calculate_production_rates_for_base base_id g')
     = fst (ProductionGraph.calculate_production_rates_for_base base_id g))
  /\ (forall p c,
        fst (ProductionGraph.calculate_production_rates_for_base base_id g)
        = Ok (p, c)
        <-> for_each (base_production_entries b) accumulate_item [] = Ok p /\
            for_each (base_consumption_entries b) accumulate_item [] = Ok c)
  /\ (forall p c,
        fst (ProductionGraph.calculate_production_rates_for_base base_id g)
        = Ok (p, c) ->
        forall r,
          key_total r (base_production_entries b) None = Ok (Dict.get p r) /\
          key_total r (base_consumption_entries b) None = Ok (Dict.get c r))
  /\ ((forall r, exists v, key_total r (base_production_entries b) None = Ok v) ->
      (forall r, exists v, key_total r (base_consumption_entries b) None = Ok v) ->
      exists p c,
        fst (ProductionGraph.calculate_production_rates_for_base base_id g)
        = Ok (p, c)).
Proof.
  intros G.
  assert (U : forall g', Dict.get (ProductionGraph.bases g') base_id = Some b ->
    forall p c,
      fst (ProductionGraph.calculate_production_rates_for_base base_id g')
      = Ok (p, c)
      <-> for_each (base_production_entries b) accumulate_item [] = Ok p /\
          for_each (base_consumption_entries b) accumulate_item [] = Ok c).
  { intros g' G' p c. cbn.
    unfold ProductionGraph.calculate_production_rates_for_base_body.
    rewrite G'. apply base_rates_split. }
  split; [|split; [exact (U g G)|split]].
  - intros g' G'. cbn.
    unfold ProductionGraph.calculate_production_rates_for_base_body.
    rewrite G, G'. reflexivity.
  - intros p c E r. apply (U g G) in E. destruct E as [Ep Ec]. split.
    + exact (accumulate_items_key _ _ _ r Ep).
    + exact (accumulate_items_key _ _ _ r Ec).
  - intros Hp Hc.
    destruct (accumulate_items_total (base_production_entries b) [] Hp) as [p Ep].
    destruct (accumulate_items_total (base_consumption_entries b) [] Hc) as [c Ec].
    exists p, c. apply (U g G). split; assumption.
Qed.

(** On the chain A -> B -> C the per-base query reports the undiscounted
    totals, where the global query reports B and C cut to 0. *)
Lemma base_rates_are_local_witness :
  (exists b, Dict.get (ProductionGraph.bases Scenario.chain) 1%Z = Some b /\
     forall r,
       key_total r (base_production_entries b) None
       = Ok (Dict.get [("B"%string, 10); ("C"%string, 10)] r))
  /\ fst (ProductionGraph.calculate_production_rates_for_base 1 Scenario.chain)
     = Ok ([("B"%string, 10); ("C"%string, 10)],
           [("A"%string, 10); ("B"%string, 10)])
  /\ fst (ProductionGraph.calculate_production_rates Scenario.chain)
     = Ok ([("B"%string, 0); ("C"%string, 0)],
           [("A"%string, 10); ("B"%string, 10)],
           [("A"%string, []); ("B"%string, []); ("C"%string, ["B"%string])]).
Proof.
  assert (E : fst (ProductionGraph.calculate_production_rates_for_base 1
                     Scenario.chain)
              = Ok ([("B"%string, 10); ("C"%string, 10)],
                    [("A"%string, 10); ("B"%string, 10)]))
    by (vm_compute; reflexivity).
  split; [|split; [exact E | vm_compute; reflexivity]].
  eexists. split; [reflexivity|]. intros r.
  exact (proj1 (proj1 (proj2 (proj2
    (base_rates_are_local Scenario.chain 1 _ eq_refl))) _ _ E r)).
Defined.

(** ** The shortage-propagation pass *)

Lemma for_each_filter {A S : Type} (P : A -> bool) (xs : list A)
    (body : S -> A -> result S) (s : S) :
  for_each (filter P xs) body s
  = for_each xs (fun s x => if P x then body s x else Ok s) s.
Proof.
  revert s. induction xs as [|x xs IH]; intros s; cbn; [reflexivity|].
  destruct (P x); cbn; [|apply IH].
  destruct (body s x); cbn; [apply IH | reflexivity].
Qed.

Lemma limit_facility_unfold (item : string) (ratio : float)
    (st : rates * factors) (f : Facility.t) :
  ProductionGraph.limit_facility item ratio st f
  = if lists_input item f
    then for_each (adjusted_outputs f)
                  (ProductionGraph.limit_output item ratio) st
    else Ok st.
Proof.
  unfold ProductionGraph.limit_facility, lists_input, adjusted_inputs,
    adjusted_outputs.
  destruct (Facility.get_adjusted_rates f); reflexivity.
Qed.

(** The loop nest of lines 81-89 is one loop over [limited_outputs]. *)
Lemma limit_loops_flat (g : ProductionGraph.t) (item : string) (ratio : float)
    (st : rates * factors) :
  for_each (Dict.values (ProductionGraph.bases g))
    (fun st base =>
       for_each (Dict.values (Base.facilities base))
                (ProductionGraph.limit_facility item ratio) st) st
  = for_each (limited_outputs g item)
             (ProductionGraph.limit_output item ratio) st.
Proof.
  unfold limited_outputs, all_facilities.
  rewrite for_each_flat_map, for_each_filter, for_each_flat_map.
  apply for_each_ext. intros s b _.
  apply for_each_ext. intros s' f _. apply limit_facility_unfold.
Qed.

Lemma propagate_shortage_unfold (g : ProductionGraph.t) (p : rates)
    (lf : factors) (item : string) (consumption : float) :
  ProductionGraph.propagate_shortage g (p, lf) (item, consumption)
  = if Dict.get_default p item 0 <? consumption then
      q <- PyFloat.truediv (Dict.get_default p item 0) consumption ;;
      ratio <- round_float q 4 ;;
      for_each (limited_outputs g item)
               (ProductionGraph.limit_output item ratio)
               (p, Dict.set lf item [])
    else Ok (p, lf).
Proof.
  unfold ProductionGraph.propagate_shortage.
  destruct (Dict.get_default p item 0 <? consumption); [|reflexivity].
  destruct (PyFloat.truediv _ _) as [q|e]; cbn; [|reflexivity].
  destruct (round_float q 4) as [ratio|e]; cbn; [|reflexivity].
  apply limit_loops_flat.
Qed.

(** One subtraction (lines 86-89). *)
Lemma limit_output_inv (item : string) (ratio : float) (p p' : rates)
    (lf lf' : factors) (o : string) (rate : float) :
  ProductionGraph.limit_output item ratio (p, lf) (o, rate) = Ok (p', lf') ->
  exists cur v,
    Dict.get p o = Some cur /\
    round_float (cur - rate * (1 - ratio)) 2 = Ok v /\
    p' = Dict.set p o v /\
    Dict.get lf' o = Some (Dict.get_default lf o [] ++ [item]) /\
    (forall k, o <> k -> Dict.get lf' k = Dict.get lf k).
Proof.
  unfold ProductionGraph.limit_output, Dict.getitem.
  destruct (Dict.get p o) as [cur|] eqn:G; cbn; [|discriminate].
  destruct (round_float _ 2) as [v|e] eqn:R; cbn; [|discriminate].
  intros [= <- <-]. exists cur, v.
  split; [reflexivity|]. split; [exact R|]. split; [reflexivity|].
  unfold Dict.mem, Dict.get_default.
  destruct (Dict.get lf o) as [l|] eqn:L; cbn.
  - rewrite L. split; [apply get_set_same|].
    intros k N. apply get_set_other. exact N.
  - rewrite !get_set_same. split; [reflexivity|].
    intros k N. rewrite !(get_set_other _ _ _ _ N). reflexivity.
Qed.

(** What a run of subtractions leaves untouched, and what it marks. *)
Lemma limit_outputs_frame (item : string) (ratio : float) (outs : item_rates)
    (p p' : rates) (lf lf' : factors) :
  for_each outs (ProductionGraph.limit_output item ratio) (p, lf)
  = Ok (p', lf') ->
  (forall k, ~ In k (map fst outs) ->
     Dict.get p' k = Dict.get p k /\ Dict.get lf' k = Dict.get lf k) /\
  (forall k, In k (map fst outs) -> Dict.mem lf' k = true) /\
  (forall k, Dict.mem lf k = true -> Dict.mem lf' k = true).
Proof.
  revert p lf. induction outs as [|[o rate] outs IH]; intros p lf; cbn [for_each].
  - intros [= <- <-]. repeat split; auto. all: try (intros k []).
  - destruct (ProductionGraph.limit_output item ratio (p, lf) (o, rate))
      as [[p1 lf1]|e] eqn:E; cbn [bind]; [|discriminate].
    intros F. destruct (IH _ _ F) as (Hf & Hm & Hg).
    destruct (limit_output_inv _ _ _ _ _ _ _ _ E) as (cur & v & _ & _ & -> & Lo & Lk).
    assert (M1 : forall k, Dict.mem lf k = true -> Dict.mem lf1 k = true).
    { intros k. unfold Dict.mem. destruct (string_dec o k) as [<-|N].
      - rewrite Lo. reflexivity.
      - rewrite (Lk k N). auto. }
    repeat split.
    + destruct (Hf k) as [Hp _]; [cbn in *; tauto|].
      rewrite Hp. apply get_set_other. cbn in *. tauto.
    + destruct (Hf k) as [_ Hl]; [cbn in *; tauto|].
      rewrite Hl. apply Lk. cbn in *. tauto.
    + intros k [<-|I]; [|auto]. apply Hg. unfold Dict.mem. cbn. rewrite Lo.
      reflexivity.
    + intros k Mk. apply Hg, M1, Mk.
Qed.

(** One iteration of the pass, read from its result. *)
Lemma propagate_step (g : ProductionGraph.t) (p p' : rates) (lf lf' : factors)
    (i : string) (ci : float) :
  ProductionGraph.propagate_shortage g (p, lf) (i, ci) = Ok (p', lf') ->
  ((Dict.get_default p i 0 <? ci) = false /\ p' = p /\ lf' = lf) \/
  ((Dict.get_default p i 0 <? ci) = true /\
   (forall k, ~ In k (map fst (limited_outputs g i)) ->
      Dict.get p' k = Dict.get p k /\
      Dict.get lf' k = Dict.get (Dict.set lf i []) k) /\
   (forall k, In k (map fst (limited_outputs g i)) -> Dict.mem lf' k = true) /\
   (forall k, Dict.mem (Dict.set lf i []) k = true -> Dict.mem lf' k = true)).
Proof.
  rewrite propagate_shortage_unfold.
  destruct (Dict.get_default p i 0 <? ci).
  - destruct (PyFloat.truediv _ _) as [q|e]; cbn [bind]; [|discriminate].
    destruct (round_float q 4) as [ratio|e]; cbn [bind]; [|discriminate].
    intros F. right. split; [reflexivity|].
    exact (limit_outputs_frame _ _ _ _ _ _ _ F).
  - intros [= <- <-]. left. auto.
Qed.

Lemma step_keys_grow (g : ProductionGraph.t) (p p' : rates) (lf lf' : factors)
    (e : string * float) (k : string) :
  ProductionGraph.propagate_shortage g (p, lf) e = Ok (p', lf') ->
  Dict.mem lf k = true -> Dict.mem lf' k = true.
Proof.
  destruct e as [i ci]. intros E M.
  destruct (propagate_step _ _ _ _ _ _ _ E) as [(_ & _ & ->)|(_ & _ & _ & Hg)];
    [exact M|].
  apply Hg. rewrite mem_set, M. apply orb_true_r.
Qed.

Lemma step_changed_marked (g : ProductionGraph.t) (p p' : rates)
    (lf lf' : factors) (e : string * float) (k : string) :
  ProductionGraph.propagate_shortage g (p, lf) e = Ok (p', lf') ->
  Dict.get p' k = Dict.get p k \/ Dict.mem lf' k = true.
Proof.
  destruct e as [i ci]. intros E.
  destruct (propagate_step _ _ _ _ _ _ _ E) as [(_ & -> & _)|(_ & Hf & Hm & _)];
    [left; reflexivity|].
  destruct (in_dec string_dec k (map fst (limited_outputs g i))) as [I|N].
  - right. exact (Hm k I).
  - left. exact (proj1 (Hf k N)).
Qed.

Lemma pass_keys_grow (g : ProductionGraph.t) (es : list (string * float))
    (p p' : rates) (lf lf' : factors) (k : string) :
  ProductionGraph.shortage_pass g es (p, lf) = Ok (p', lf') ->
  Dict.mem lf k = true -> Dict.mem lf' k = true.
Proof.
  unfold ProductionGraph.shortage_pass. revert p lf.
  induction es as [|e es IH]; intros p lf; cbn [for_each].
  - intros [= <- <-]. auto.
  - destruct (ProductionGraph.propagate_shortage g (p, lf) e)
      as [[p1 lf1]|x] eqn:E; cbn [bind]; [|discriminate].
    intros F M. apply (IH _ _ F). exact (step_keys_grow _ _ _ _ _ _ _ E M).
Qed.

(** A production total that the pass changed belongs to a key of the
    limiting-factors map. *)
Lemma pass_changed_marked (g : ProductionGraph.t) (es : list (string * float))
    (p p' : rates) (lf lf' : factors) (k : string) :
  ProductionGraph.shortage_pass g es (p, lf) = Ok (p', lf') ->
  Dict.get p' k = Dict.get p k \/ Dict.mem lf' k = true.
Proof.
  unfold ProductionGraph.shortage_pass. revert p lf.
  induction es as [|e es IH]; intros p lf; cbn [for_each].
  - intros [= <- <-]. left. reflexivity.
  - destruct (ProductionGraph.propagate_shortage g (p, lf) e)
      as [[p1 lf1]|x] eqn:E; cbn [bind]; [|discriminate].
    intros F. destruct (IH _ _ F) as [Hp|Hm]; [|right; exact Hm].
    destruct (step_changed_marked _ _ _ _ _ _ k E) as [Hp1|Hm1].
    + left. congruence.
    + right. exact (pass_keys_grow _ _ _ _ _ _ k F Hm1).
Qed.

Lemma shortage_pass_app (g : ProductionGraph.t) (xs ys : list (string * float))
    (st : rates * factors) :
  ProductionGraph.shortage_pass g (xs ++ ys) st
  = (st' <- ProductionGraph.shortage_pass g xs st ;;
     ProductionGraph.shortage_pass g ys st').
Proof. apply for_each_app. Qed.

Lemma accumulate_items_NoDup (es : item_rates) (d d' : rates) :
  NoDup (Dict.keys d) -> for_each es accumulate_item d = Ok d' ->
  NoDup (Dict.keys d').
Proof.
  revert d. induction es as [|[item rate] es IH]; intros d ND; cbn [for_each].
  - intros [= <-]. exact ND.
  - unfold accumulate_item, accumulate.
    destruct (round_float _ 2) as [v|e]; cbn [bind]; [|discriminate].
    apply IH. apply NoDup_keys_set. exact ND.
Qed.

Lemma consumption_keys_NoDup (g : ProductionGraph.t) (c p : rates) :
  ProductionGraph.aggregation_passes g = Ok (c, p) -> NoDup (Dict.keys c).
Proof.
  intros E. apply aggregation_passes_split in E. destruct E as [Ec _].
  exact (accumulate_items_NoDup _ [] _ (NoDup_nil _) Ec).
Qed.

Lemma entries_before_split (i : string) (ci : float)
    (pre post : list (string * float)) :
  ~ In i (map fst pre) ->
  entries_before i (pre ++ (i, ci) :: post) = pre /\
  Dict.get (pre ++ (i, ci) :: post) i = Some ci.
Proof.
  induction pre as [|[k v] pre IH]; intros N; cbn.
  - rewrite String.eqb_refl. auto.
  - destruct (String.eqb_spec k i) as [->|_]; [cbn in N; tauto|].
    destruct IH as [IH1 IH2]; [cbn in N; tauto|].
    rewrite IH1. auto.
Qed.

Lemma NoDup_keys_middle (i : string) (ci : float)
    (pre post : list (string * float)) :
  NoDup (map fst (pre ++ (i, ci) :: post)) -> ~ In i (map fst pre).
Proof.
  rewrite map_app. cbn. intros ND I.
  apply NoDup_remove_2 in ND. apply ND. apply in_or_app. left. exact I.
Qed.

(** [found_short] is the test of line 76 at the moment [i] is reached. *)
Lemma found_short_at (g : ProductionGraph.t) (c p0 p1 : rates) (lf1 : factors)
    (i : string) (ci : float) (pre post : list (string * float)) :
  ProductionGraph.aggregation_passes g = Ok (c, p0) ->
  Dict.items c = pre ++ (i, ci) :: post ->
  ProductionGraph.shortage_pass g pre (p0, []) = Ok (p1, lf1) ->
  found_short g i = (Dict.get_default p1 i 0 <? ci).
Proof.
  intros A I P. unfold found_short. rewrite A.
  pose proof (consumption_keys_NoDup _ _ _ A) as ND.
  unfold Dict.keys, Dict.items in *. rewrite I in ND.
  destruct (entries_before_split i ci pre post (NoDup_keys_middle _ _ _ _ ND))
    as [B G].
  rewrite I, G, B, P. reflexivity.
Qed.

Section Unlimited.
Variables (g : ProductionGraph.t) (c p0 : rates) (r : string).
Hypothesis Hagg : ProductionGraph.aggregation_passes g = Ok (c, p0).
Hypothesis Hno :
  forall i, found_short g i = true -> ~ In r (map fst (limited_outputs g i)).

(** While no facility that lists a resource found short produces [r], the
    pass leaves the production total of [r] alone, and its limiting-factors
    entry is untouched or empty; it is empty once [r] itself was found
    short. *)
Lemma pass_unlimited (post pre rest : list (string * float)) (p1 p3 : rates)
    (lf1 lf3 : factors) :
  Dict.items c = pre ++ post ++ rest ->
  ProductionGraph.shortage_pass g pre (p0, []) = Ok (p1, lf1) ->
  ProductionGraph.shortage_pass g post (p1, lf1) = Ok (p3, lf3) ->
  Dict.get p3 r = Dict.get p1 r /\
  (Dict.get lf3 r = Dict.get lf1 r \/ Dict.get lf3 r = Some []) /\
  (forall cr, In (r, cr) post -> (Dict.get_default p1 r 0 <? cr) = true ->
     Dict.get lf3 r = Some []).
Proof.
  revert pre p1 lf1.
  induction post as [|[i ci] post IH]; intros pre p1 lf1 I P.
  - cbn. intros [= <- <-]. split; [reflexivity|]. split; [left; reflexivity|].
    intros cr [].
  - unfold ProductionGraph.shortage_pass at 1. cbn [for_each].
    destruct (ProductionGraph.propagate_shortage g (p1, lf1) (i, ci))
      as [[p2 lf2]|x] eqn:E; cbn [bind]; [|discriminate].
    intros F.
    assert (P2 : ProductionGraph.shortage_pass g (pre ++ [(i, ci)]) (p0, [])
                 = Ok (p2, lf2)).
    { rewrite shortage_pass_app, P. cbn [bind].
      unfold ProductionGraph.shortage_pass. cbn [for_each]. rewrite E.
      reflexivity. }
    assert (I2 : Dict.items c = (pre ++ [(i, ci)]) ++ post ++ rest)
      by (rewrite <- app_assoc; exact I).
    destruct (IH _ _ _ I2 P2 F) as (A & B & C).
    pose proof (found_short_at g c p0 p1 lf1 i ci pre (post ++ rest) Hagg I P)
      as FS.
    destruct (propagate_step _ _ _ _ _ _ _ E)
      as [(T & -> & ->)|(T & Hf & _ & _)].
    + split; [exact A|]. split; [exact B|].
      intros cr [[= <- <-]|J] T'; [congruence|]. exact (C cr J T').
    + rewrite T in FS. destruct (Hf r (Hno i FS)) as [Hp Hl].
      rewrite get_set in Hl. cbn [key_eqb string_Key] in Hl.
      split; [congruence|]. split.
      * destruct (String.eqb i r); destruct B as [B|B]; rewrite B; auto.
      * intros cr [[= -> <-]|J] T'.
        -- rewrite String.eqb_refl in Hl.
           destruct B as [B|B]; rewrite B; auto.
        -- apply (C cr J). unfold Dict.get_default in *. rewrite Hp. exact T'.
Qed.

End Unlimited.

Lemma calculate_production_rates_inv (g : ProductionGraph.t) (p c : rates)
    (lf : factors) :
  ProductionGraph.calculate_production_rates_body g = Ok (p, c, lf) ->
  exists p0,
    ProductionGraph.aggregation_passes g = Ok (c, p0) /\
    ProductionGraph.shortage_pass g (Dict.items c) (p0, []) = Ok (p, lf).
Proof.
  unfold ProductionGraph.calculate_production_rates_body.
  destruct (ProductionGraph.aggregation_passes g) as [[c0 p0]|e];
    cbn [bind]; [|discriminate].
  destruct (ProductionGraph.shortage_pass g (Dict.items c0) (p0, []))
    as [[p1 lf1]|e] eqn:E; cbn [bind]; [|discriminate].
  intros [= <- <- <-]. exists p0. auto.
Qed.

(** The iteration that visits [r], cut out of a pass that returned. *)
Lemma pass_visit (g : ProductionGraph.t) (c p0 p : rates) (lf : factors)
    (r : string) (cr : float) :
  ProductionGraph.shortage_pass g (Dict.items c) (p0, []) = Ok (p, lf) ->
  Dict.get c r = Some cr ->
  exists pre post p1 lf1 p2 lf2,
    Dict.items c = pre ++ (r, cr) :: post /\
    ProductionGraph.shortage_pass g pre (p0, []) = Ok (p1, lf1) /\
    ProductionGraph.propagate_shortage g (p1, lf1) (r, cr) = Ok (p2, lf2) /\
    ProductionGraph.shortage_pass g post (p2, lf2) = Ok (p, lf).
Proof.
  intros P G. apply get_In in G.
  destruct (in_split _ _ G) as (pre & post & I).
  rewrite I, shortage_pass_app in P.
  destruct (ProductionGraph.shortage_pass g pre (p0, []))
    as [[p1 lf1]|x] eqn:P1; cbn [bind] in P; [|discriminate].
  unfold ProductionGraph.shortage_pass in P at 1. cbn [for_each] in P.
  destruct (ProductionGraph.propagate_shortage g (p1, lf1) (r, cr))
    as [[p2 lf2]|x] eqn:E2; cbn [bind] in P; [|discriminate].
  exists pre, post, p1, lf1, p2, lf2. auto.
Qed.

(** C9: take the maps returned by calculate_production_rates and a
    resource whose consumption total exceeds its production total, in the
    returned maps or at the moment the pass reached it.  The resource is a
    key of the limiting-factors map; and when no facility that lists a
    resource found short produces it (it is the output of no throttled
    facility), its entry is the empty list. *)
Theorem short_resources_are_keys (g : ProductionGraph.t) (p c : rates)
    (lf : factors) (r : string) :
  fst (ProductionGraph.calculate_production_rates g) = Ok (p, c, lf) ->
  (exists cr, Dict.get c r = Some cr /\ (Dict.get_default p r 0 <? cr) = true)
  \/ found_short g r = true ->
  Dict.mem lf r = true /\
  ((forall i, found_short g i = true ->
      ~ In r (map fst (limited_outputs g i))) ->
   Dict.get lf r = Some []).
Proof.
  cbn. intros E H.
  destruct (calculate_production_rates_inv _ _ _ _ E) as (p0 & A & P).
  assert (V : exists cr pre post p1 lf1 p2 lf2,
    Dict.get c r = Some cr /\
    Dict.items c = pre ++ (r, cr) :: post /\
    ProductionGraph.shortage_pass g pre (p0, []) = Ok (p1, lf1) /\
    ProductionGraph.propagate_shortage g (p1, lf1) (r, cr) = Ok (p2, lf2) /\
    ProductionGraph.shortage_pass g post (p2, lf2) = Ok (p, lf) /\
    ((Dict.get_default p r 0 <? cr) = true \/
     (Dict.get_default p1 r 0 <? cr) = true)).
  { destruct H as [(cr & G & T)|FS].
    - destruct (pass_visit _ _ _ _ _ _ _ P G)
        as (pre & post & p1 & lf1 & p2 & lf2 & I & P1 & E2 & P3).
      exists cr, pre, post, p1, lf1, p2, lf2. auto 10.
    - assert (G : exists cr, Dict.get c r = Some cr).
      { unfold found_short in FS. rewrite A in FS.
        destruct (Dict.get c r) as [cr|]; [eauto | discriminate]. }
      destruct G as [cr G].
      destruct (pass_visit _ _ _ _ _ _ _ P G)
        as (pre & post & p1 & lf1 & p2 & lf2 & I & P1 & E2 & P3).
      rewrite (found_short_at g c p0 p1 lf1 r cr pre post A I P1) in FS.
      exists cr, pre, post, p1, lf1, p2, lf2. auto 10. }
  destruct V as (cr & pre & post & p1 & lf1 & p2 & lf2
                 & G & I & P1 & E2 & P3 & T).
  split.
  - assert (T1 : (Dict.get_default p1 r 0 <? cr) = true \/
                 Dict.mem lf r = true).
    { destruct T as [T|T]; [|left; exact T].
      destruct (pass_changed_marked _ _ _ _ _ _ r P3) as [Hp|Hm];
        [|right; exact Hm].
      destruct (step_changed_marked _ _ _ _ _ _ r E2) as [Hp2|Hm2];
        [|right; exact (pass_keys_grow _ _ _ _ _ _ r P3 Hm2)].
      left. unfold Dict.get_default in *. rewrite <- Hp2, <- Hp. exact T. }
    destruct T1 as [T1|M]; [|exact M].
    apply (pass_keys_grow _ _ _ _ _ _ r P3).
    destruct (propagate_step _ _ _ _ _ _ _ E2)
      as [(T' & _ & _)|(_ & _ & _ & Hg)]; [congruence|].
    apply Hg. rewrite mem_set. cbn [key_eqb string_Key].
    rewrite String.eqb_refl. reflexivity.
  - intros Hno.
    destruct (pass_unlimited g c p0 r A Hno (Dict.items c) [] [] p0 p [] lf)
      as (Hp & _ & Hs);
      [rewrite app_nil_r; reflexivity | reflexivity | exact P |].
    destruct (pass_unlimited g c p0 r A Hno pre [] ((r, cr) :: post)
                p0 p1 [] lf1 I eq_refl P1) as (Hp1 & _ & _).
    apply (Hs cr (get_In _ _ _ G)). unfold Dict.get_default in *.
    destruct T as [T|T]; [rewrite <- Hp | rewrite <- Hp1]; exact T.
Qed.

(** On the chain A -> B -> C nothing produces A: it is found short, no
    facility's output is A, and its entry is the empty list. *)
Lemma short_resources_are_keys_witness :
  fst (ProductionGraph.calculate_production_rates Scenario.chain)
  = Ok ([("B"%string, 0); ("C"%string, 0)],
        [("A"%string, 10); ("B"%string, 10)],
        [("A"%string, []); ("B"%string, []); ("C"%string, ["B"%string])])
  /\ Dict.mem [("A"%string, @nil string); ("B"%string, []);
               ("C"%string, ["B"%string])] "A"%string = true
  /\ Dict.get [("A"%string, @nil string); ("B"%string, []);
               ("C"%string, ["B"%string])] "A"%string = Some [].
Proof.
  assert (E : fst (ProductionGraph.calculate_production_rates Scenario.chain)
    = Ok ([("B"%string, 0); ("C"%string, 0)],
          [("A"%string, 10); ("B"%string, 10)],
          [("A"%string, []); ("B"%string, []); ("C"%string, ["B"%string])]))
    by (vm_compute; reflexivity).
  split; [exact E|].
  destruct (short_resources_are_keys Scenario.chain _ _ _ "A" E
              (or_intror eq_refl)) as [M L].
  split; [exact M|]. apply L.
  intros i _. unfold limited_outputs.
  replace (all_facilities Scenario.chain)
    with [Scenario.facility 1 [("A"%string, 10)] [("B"%string, 10)];
          Scenario.facility 2 [("B"%string, 10)] [("C"%string, 10)]]
    by reflexivity.
  cbn [filter].
  destruct (lists_input i _), (lists_input i _); cbn;
    intuition discriminate.
Defined.

Lemma lists_input_spec (item : string) (f : Facility.t) :
  lists_input item f = true
  <-> Facility.is_active f = true /\
      exists r0, In (item, r0) (adjusted_inputs f).
Proof.
  unfold lists_input. rewrite existsb_exists. split.
  - intros ([i r0] & I & E). apply String.eqb_eq in E. subst i. split.
    + unfold adjusted_inputs, Facility.get_adjusted_rates in I.
      destruct (Facility.is_active f); [reflexivity | destruct I].
    + exists r0. exact I.
  - intros (_ & r0 & I). exists (item, r0). split; [exact I|].
    apply String.eqb_refl.
Qed.

Lemma limited_outputs_spec (g : ProductionGraph.t) (item o : string)
    (rate : float) :
  In (o, rate) (limited_outputs g item)
  <-> exists b f,
        In b (Dict.values (ProductionGraph.bases g)) /\
        In f (Dict.values (Base.facilities b)) /\
        Facility.is_active f = true /\
        (exists r0, In (item, r0) (adjusted_inputs f)) /\
        In (o, rate) (adjusted_outputs f).
Proof.
  unfold limited_outputs, all_facilities. rewrite in_flat_map. split.
  - intros (f & F & O). apply filter_In in F. destruct F as [F L].
    apply in_flat_map in F. destruct F as (b & B & F).
    apply lists_input_spec in L. destruct L as [Ha Hi].
    exists b, f. auto.
  - intros (b & f & B & F & Ha & Hi & O). exists f. split; [|exact O].
    apply filter_In. split.
    + apply in_flat_map. exists b. auto.
    + apply lists_input_spec. auto.
Qed.

(** C1, as the code has it: the pass is one loop over the entries of the
    consumption map built by the aggregation passes, each key once.  An
    iteration compares the consumption total with the production total as
    the earlier iterations left it ([found_short]); when production is not
    below consumption it changes nothing; otherwise it computes ratio =
    round(production / consumption, 4), sets the entry of the resource in
    the limiting-factors map to the empty list and, for every output of
    every active facility of any base that lists the resource among its
    adjusted inputs, in order, replaces the production total of the output
    item by round(total - output_rate * (1 - ratio), 2) and appends the
    resource to the output item's list. *)
Theorem shortage_pass_is_one_sweep (g : ProductionGraph.t) :
  (forall p c lf,
     fst (ProductionGraph.calculate_production_rates g) = Ok (p, c, lf) ->
     exists p0,
       ProductionGraph.aggregation_passes g = Ok (c, p0) /\
       NoDup (Dict.keys c) /\
       for_each (Dict.items c) (ProductionGraph.propagate_shortage g) (p0, [])
       = Ok (p, lf))
  /\ (forall p lf item consumption,
        (Dict.get_default p item 0 <? consumption) = false ->
        ProductionGraph.propagate_shortage g (p, lf) (item, consumption)
        = Ok (p, lf))
  /\ (forall p lf item consumption,
        (Dict.get_default p item 0 <? consumption) = true ->
        ProductionGraph.propagate_shortage g (p, lf) (item, consumption)
        = (q <- PyFloat.truediv (Dict.get_default p item 0) consumption ;;
           ratio <- round_float q 4 ;;
           for_each (limited_outputs g item)
                    (ProductionGraph.limit_output item ratio)
                    (p, Dict.set lf item [])))
  /\ (forall item o rate,
        In (o, rate) (limited_outputs g item)
        <-> exists b f,
              In b (Dict.values (ProductionGraph.bases g)) /\
              In f (Dict.values (Base.facilities b)) /\
              Facility.is_active f = true /\
              (exists r0, In (item, r0) (adjusted_inputs f)) /\
              In (o, rate) (adjusted_outputs f))
  /\ (forall item ratio p lf o rate p' lf',
        ProductionGraph.limit_output item ratio (p, lf) (o, rate)
        = Ok (p', lf') ->
        exists cur v,
          Dict.get p o = Some cur /\
          round_float (cur - rate * (1 - ratio)) 2 = Ok v /\
          Dict.get p' o = Some v /\
          (forall k, o <> k -> Dict.get p' k = Dict.get p k) /\
          Dict.get lf' o = Some (Dict.get_default lf o [] ++ [item]) /\
          (forall k, o <> k -> Dict.get lf' k = Dict.get lf k))
  /\ (forall c p0 item ci pre post p1 lf1,
        ProductionGraph.aggregation_passes g = Ok (c, p0) ->
        Dict.items c = pre ++ (item, ci) :: post ->
        ProductionGraph.shortage_pass g pre (p0, []) = Ok (p1, lf1) ->
        found_short g item = (Dict.get_default p1 item 0 <? ci)).
Proof.
  split; [|split; [|split; [|split; [|split]]]].
  - cbn. intros p c lf E.
    destruct (calculate_production_rates_inv _ _ _ _ E) as (p0 & A & P).
    exists p0. split; [exact A|]. split; [|exact P].
    exact (consumption_keys_NoDup _ _ _ A).
  - intros p lf item consumption T.
    rewrite propagate_shortage_unfold, T. reflexivity.
  - intros p lf item consumption T.
    rewrite propagate_shortage_unfold, T. reflexivity.
  - apply limited_outputs_spec.
  - intros item ratio p lf o rate p' lf' E.
    destruct (limit_output_inv _ _ _ _ _ _ _ _ E)
      as (cur & v & G & R & -> & Lo & Lk).
    exists cur, v. split; [exact G|]. split; [exact R|].
    split; [apply get_set_same|]. split; [|split; [exact Lo | exact Lk]].
    intros k N. apply get_set_other. exact N.
  - intros c p0 item ci pre post p1 lf1 A I P.
    exact (found_short_at g c p0 p1 lf1 item ci pre post A I P).
Qed.

(** On the chain A -> B -> C the aggregation passes leave B balanced (10
    produced, 10 consumed).  The iteration for A cuts the production of B to
    0; the iteration for B, which comes later, then finds B short and cuts C:
    a shortage created by the pass is propagated by the same pass. *)
Lemma induced_shortage_is_propagated :
  ProductionGraph.aggregation_passes Scenario.chain
  = Ok ([("A"%string, 10); ("B"%string, 10)],
        [("B"%string, 10); ("C"%string, 10)])
  /\ (Dict.get_default [("B"%string, 10); ("C"%string, 10)] "B"%string 0 <? 10)
     = false
  /\ found_short Scenario.chain "B" = true
  /\ fst (ProductionGraph.calculate_production_rates Scenario.chain)
     = Ok ([("B"%string, 0); ("C"%string, 0)],
           [("A"%string, 10); ("B"%string, 10)],
           [("A"%string, []); ("B"%string, []); ("C"%string, ["B"%string])]).
Proof. repeat split; vm_compute; reflexivity. Qed.

Lemma shortage_pass_is_one_sweep_witness :
  (Dict.get_default [("B"%string, 10); ("C"%string, 10)] "A"%string 0 <? 10)
  = true
  /\ ProductionGraph.propagate_shortage Scenario.chain
       ([("B"%string, 10); ("C"%string, 10)], []) ("A"%string, 10)
     = Ok ([("B"%string, 0); ("C"%string, 10)],
           [("A"%string, []); ("B"%string, ["A"%string])]).
Proof.
  split; [reflexivity|].
  eapply eq_trans;
    [exact (proj1 (proj2 (proj2 (shortage_pass_is_one_sweep Scenario.chain)))
              [("B"%string, 10); ("C"%string, 10)] [] "A"%string 10 eq_refl)
    | vm_compute; reflexivity].
Defined.

(** * Further properties of the engine *)

(** ** Which exceptions the queries can raise *)

(** A loop keeps an invariant of its state, and raises only what its body
    raises under that invariant. *)
Lemma for_each_invariant {A S : Type} (I : S -> Prop) (P : exn -> Prop)
    (xs : list A) (body : S -> A -> result S) (s : S) :
  (forall s x, In x xs -> I s ->
     match body s x with Ok s' => I s' | Raise e => P e end) ->
  I s ->
  match for_each xs body s with Ok s' => I s' | Raise e => P e end.
Proof.
  revert s. induction xs as [|x xs IH]; intros s Hb Hs; cbn [for_each].
  - exact Hs.
  - pose proof (Hb s x (or_introl eq_refl) Hs) as Hx.
    destruct (body s x) as [s1|e]; cbn [bind]; [|exact Hx].
    apply IH; [|exact Hx].
    intros s' y Hy. apply Hb. right. exact Hy.
Qed.

Lemma round_float_raises (v : float) (dp : nat) :
  match round_float v dp with Ok _ => True | Raise e => e = InvalidOperation end.
Proof.
  unfold round_float. destruct (Prim2SF v); try exact I; try reflexivity.
  cbv zeta. destruct (Qle_bool _ _); [reflexivity|].
  destruct (10 ^ 28 <=? _)%Z; [reflexivity | exact I].
Qed.

Lemma accumulate_item_raises (d : rates) (entry : string * float) :
  match accumulate_item d entry with
  | Ok _ => True
  | Raise e => e = InvalidOperation
  end.
Proof.
  destruct entry as [item rate]. unfold accumulate_item, accumulate.
  pose proof (round_float_raises (Dict.get_default d item 0 + rate) 2) as R.
  destruct (round_float _ 2); cbn [bind]; [exact I | exact R].
Qed.

Lemma accumulate_items_raises (es : item_rates) (d : rates) :
  match for_each es accumulate_item d with
  | Ok _ => True
  | Raise e => e = InvalidOperation
  end.
Proof.
  apply (for_each_invariant (fun _ => True) (fun e => e = InvalidOperation));
    [|exact I].
  intros s x _ _. apply accumulate_item_raises.
Qed.

Lemma accumulate_facility_raises (st : rates * rates) (f : Facility.t) :
  match accumulate_facility st f with
  | Ok _ => True
  | Raise e => e = InvalidOperation
  end.
Proof.
  destruct st as [c p]. rewrite accumulate_facility_unfold.
  pose proof (accumulate_items_raises (adjusted_inputs f) c) as Hc.
  destruct (for_each (adjusted_inputs f) accumulate_item c) as [c'|e];
    cbn [bind]; [|exact Hc].
  pose proof (accumulate_items_raises (adjusted_outputs f) p) as Hp.
  destruct (for_each (adjusted_outputs f) accumulate_item p) as [p'|e];
    cbn [bind]; [exact I | exact Hp].
Qed.

Lemma aggregation_passes_raises (g : ProductionGraph.t) :
  match ProductionGraph.aggregation_passes g with
  | Ok _ => True
  | Raise e => e = InvalidOperation
  end.
Proof.
  unfold ProductionGraph.aggregation_passes.
  rewrite raw_production_pass_entries.
  pose proof (accumulate_items_raises (map node_entry (all_nodes g)) []) as Hr.
  destruct (for_each (map node_entry (all_nodes g)) accumulate_item [])
    as [raw|e]; cbn [bind]; [|exact Hr].
  rewrite facility_pass_facilities.
  apply (for_each_invariant (fun _ => True) (fun e => e = InvalidOperation));
    [|exact I].
  intros s f _ _. apply accumulate_facility_raises.
Qed.

(** The keys of a total map after a loop of [accumulate]. *)
Lemma accumulate_items_mem (es : item_rates) (d d' : rates) (k : string) :
  for_each es accumulate_item d = Ok d' ->
  Dict.mem d' k = true <-> Dict.mem d k = true \/ In k (map fst es).
Proof.
  revert d. induction es as [|[item rate] es IH]; intros d; cbn [for_each].
  - intros [= <-]. cbn. tauto.
  - unfold accumulate_item, accumulate.
    destruct (round_float _ 2) as [v|e]; cbn [bind]; [|discriminate].
    intros E. rewrite (IH _ E), mem_set. cbn [key_eqb string_Key map fst In].
    destruct (String.eqb_spec item k) as [->|N]; cbn [orb]; [tauto|].
    intuition congruence.
Qed.

Lemma mem_In_keys {K V : Type} `{Key K} (d : Dict.t K V) (k : K) :
  Dict.mem d k = true <-> In k (Dict.keys d).
Proof.
  unfold Dict.mem. induction d as [|[k' v'] d IH]; cbn.
  - split; [discriminate | tauto].
  - destruct (key_eqb k' k) eqn:E.
    + apply key_eqb_eq in E. tauto.
    + rewrite IH. split; [tauto|]. intros [->|I]; [|exact I].
      rewrite key_eqb_refl in E. discriminate.
Qed.

(** Every output item of every facility has a production total once the
    aggregation passes are over. *)
Lemma outputs_have_totals (g : ProductionGraph.t) (c p : rates) (o : string) :
  ProductionGraph.aggregation_passes g = Ok (c, p) ->
  In o (map fst (flat_map adjusted_outputs (all_facilities g))) ->
  Dict.mem p o = true.
Proof.
  intros A Ho. apply aggregation_passes_split in A. destruct A as [_ Ep].
  apply (accumulate_items_mem _ _ _ o Ep). right.
  unfold production_entries. rewrite map_app. apply in_or_app. right. exact Ho.
Qed.

Lemma limited_outputs_incl (g : ProductionGraph.t) (item o : string) :
  In o (map fst (limited_outputs g item)) ->
  In o (map fst (flat_map adjusted_outputs (all_facilities g))).
Proof.
  unfold limited_outputs. rewrite !in_map_iff.
  intros (x & E & Hx). exists x. split; [exact E|].
  apply in_flat_map in Hx. destruct Hx as (f & F & O).
  apply in_flat_map. exists f. split; [|exact O].
  apply filter_In in F. tauto.
Qed.

Lemma limit_output_raises (g : ProductionGraph.t) (item : string)
    (ratio : float) (st : rates * factors) (output : string * float) :
  In (fst output) (map fst (flat_map adjusted_outputs (all_facilities g))) ->
  outputs_covered g st ->
  match ProductionGraph.limit_output item ratio st output with
  | Ok st' => outputs_covered g st'
  | Raise e => sweep_exn e
  end.
Proof.
  destruct st as [p lf], output as [o rate]. unfold outputs_covered.
  cbn [fst]. intros Ho Hc.
  unfold ProductionGraph.limit_output, Dict.getitem.
  pose proof (Hc o Ho) as M. unfold Dict.mem in M.
  destruct (Dict.get p o) as [cur|]; [|discriminate]. cbn [bind].
  pose proof (round_float_raises (cur - rate * (1 - ratio)) 2) as R.
  destruct (round_float _ 2) as [v|e]; cbn [bind]; [|left; exact R].
  intros k Hk. cbn [fst]. rewrite mem_set. rewrite (Hc k Hk).
  apply orb_true_r.
Qed.

Lemma propagate_shortage_raises (g : ProductionGraph.t)
    (st : rates * factors) (entry : string * float) :
  outputs_covered g st ->
  match ProductionGraph.propagate_shortage g st entry with
  | Ok st' => outputs_covered g st'
  | Raise e => sweep_exn e
  end.
Proof.
  destruct st as [p lf], entry as [item ci]. intros Hc.
  rewrite propagate_shortage_unfold.
  destruct (Dict.get_default p item 0 <? ci); [|exact Hc].
  unfold PyFloat.truediv.
  destruct (ci =? 0); cbn [bind]; [right; reflexivity|].
  pose proof (round_float_raises (Dict.get_default p item 0 / ci) 4) as R.
  destruct (round_float _ 4) as [ratio|e]; cbn [bind]; [|left; exact R].
  apply (for_each_invariant (outputs_covered g) sweep_exn).
  - intros s x Hx Hs. apply limit_output_raises; [|exact Hs].
    apply (limited_outputs_incl g item). apply in_map. exact Hx.
  - exact Hc.
Qed.

(** X1: the lookup [total_production[output_item]] of line 86 never fails:
    whatever the graph, calculate_production_rates raises nothing but
    decimal.InvalidOperation (from a rounding) or ZeroDivisionError (from
    the ratio), and its aggregation passes raise nothing but
    InvalidOperation. *)
Theorem calculate_production_rates_exceptions (g : ProductionGraph.t)
    (e : exn) :
  (ProductionGraph.aggregation_passes g = Raise e -> e = InvalidOperation) /\
  (fst (ProductionGraph.calculate_production_rates g) = Raise e ->
   e = InvalidOperation \/ e = ZeroDivisionError).
Proof.
  pose proof (aggregation_passes_raises g) as Ha. split.
  - intros E. rewrite E in Ha. exact Ha.
  - cbn. unfold ProductionGraph.calculate_production_rates_body.
    destruct (ProductionGraph.aggregation_passes g) as [[c p0]|x] eqn:A;
      cbn [bind].
    + pose proof (for_each_invariant (outputs_covered g) sweep_exn
        (Dict.items c) (ProductionGraph.propagate_shortage g) (p0, [])) as Hs.
      unfold ProductionGraph.shortage_pass.
      destruct (for_each (Dict.items c) (ProductionGraph.propagate_shortage g)
                  (p0, [])) as [[p lf]|x]; cbn [bind]; [discriminate|].
      intros [= <-]. apply Hs.
      * intros s x' _ Hc. apply propagate_shortage_raises. exact Hc.
      * intros o Ho. exact (outputs_have_totals g c p0 o A Ho).
    + intros [= <-]. left. exact Ha.
Qed.

Lemma calculate_production_rates_exceptions_witness :
  fst (ProductionGraph.calculate_production_rates Scenario.starved)
  = Raise ZeroDivisionError
  /\ (ZeroDivisionError = InvalidOperation \/
      ZeroDivisionError = ZeroDivisionError).
Proof.
  assert (E : fst (ProductionGraph.calculate_production_rates Scenario.starved)
              = Raise ZeroDivisionError) by (vm_compute; reflexivity).
  split; [exact E|].
  exact (proj2 (calculate_production_rates_exceptions Scenario.starved
                  ZeroDivisionError) E).
Defined.

(** ** What the global query depends on *)

Lemma accumulate_facility_inactive (st : rates * rates) (f : Facility.t) :
  Facility.is_active f = false -> accumulate_facility st f = Ok st.
Proof.
  intros Ha. destruct st as [c p]. unfold accumulate_facility,
    Facility.get_adjusted_rates. rewrite Ha. reflexivity.
Qed.

Lemma facility_loop_active (fs : list Facility.t) (st : rates * rates) :
  for_each fs accumulate_facility st
  = for_each (filter Facility.is_active fs) accumulate_facility st.
Proof.
  rewrite for_each_filter. apply for_each_ext. intros s f _.
  destruct (Facility.is_active f) eqn:Ha; [reflexivity|].
  apply accumulate_facility_inactive. exact Ha.
Qed.

Lemma filter_lists_active (item : string) (fs : list Facility.t) :
  filter (lists_input item) fs
  = filter (lists_input item) (filter Facility.is_active fs).
Proof.
  induction fs as [|f fs IH]; cbn [filter]; [reflexivity|].
  destruct (Facility.is_active f) eqn:Ha; cbn [filter].
  - rewrite IH. reflexivity.
  - destruct (lists_input item f) eqn:L; [|exact IH].
    apply lists_input_spec in L. destruct L as [L _]. congruence.
Qed.

Lemma aggregation_passes_active (g : ProductionGraph.t) :
  ProductionGraph.aggregation_passes g
  = (raw <- for_each (map node_entry (all_nodes g)) accumulate_item [] ;;
     for_each (active_facilities g) accumulate_facility ([], raw)).
Proof.
  unfold ProductionGraph.aggregation_passes, active_facilities.
  rewrite raw_production_pass_entries.
  destruct (for_each (map node_entry (all_nodes g)) accumulate_item []);
    cbn [bind]; [|reflexivity].
  rewrite facility_pass_facilities. apply facility_loop_active.
Qed.

Lemma limited_outputs_active (g : ProductionGraph.t) (item : string) :
  limited_outputs g item
  = flat_map adjusted_outputs
      (filter (lists_input item) (active_facilities g)).
Proof.
  unfold limited_outputs, active_facilities.
  rewrite <- filter_lists_active. reflexivity.
Qed.

(** Two graphs with the same nodes and the same active facilities are
    indistinguishable to the global query. *)
Lemma rates_of_nodes_and_active (g g' : ProductionGraph.t) :
  all_nodes g = all_nodes g' ->
  active_facilities g = active_facilities g' ->
  fst (ProductionGraph.calculate_production_rates g)
  = fst (ProductionGraph.calculate_production_rates g').
Proof.
  intros Hn Hf. cbn. unfold ProductionGraph.calculate_production_rates_body.
  rewrite !aggregation_passes_active, Hn, Hf.
  destruct (raw <- for_each (map node_entry (all_nodes g')) accumulate_item [] ;;
            for_each (active_facilities g') accumulate_facility ([], raw))
    as [[c p]|e]; cbn [bind]; [|reflexivity].
  replace (ProductionGraph.shortage_pass g (Dict.items c) (p, []))
    with (ProductionGraph.shortage_pass g' (Dict.items c) (p, []));
    [reflexivity|].
  unfold ProductionGraph.shortage_pass. apply for_each_ext.
  intros [p1 lf1] [item ci] _.
  rewrite !propagate_shortage_unfold, !limited_outputs_active, Hf.
  reflexivity.
Qed.

(** X2: the global query reads the graph only through the sequence of its
    nodes and the sequence of its active facilities: two graphs that agree on
    both give the same answer (same maps or same exception), however the
    entities are grouped into bases and whatever the bases' names, storage
    and switched-off facilities are. *)
Theorem rates_depend_on_nodes_and_active_facilities
    (g g' : ProductionGraph.t) :
  all_nodes g = all_nodes g' ->
  active_facilities g = active_facilities g' ->
  fst (ProductionGraph.calculate_production_rates g)
  = fst (ProductionGraph.calculate_production_rates g').
Proof.
  intros Hn Hf. exact (rates_of_nodes_and_active g g' Hn Hf).
Qed.

(** The smelter graph with its storage ledger written and a second,
    switched-off facility in a base of its own. *)
Lemma rates_depend_on_nodes_and_active_facilities_witness :
  let g' := snd (ProductionGraph.add_base
                   (Base.add_facility (Base.init 2 "Idle")
                      (Facility.toggle_active_state
                         (Scenario.facility 2 [("Coal"%string, 15)]
                                              [("Steel"%string, 15)])))
                   (Scenario.graph_of
                      (Base.update_storage smelter_base "Iron Ore" 100))) in
  all_nodes smelter_graph = all_nodes g' /\
  active_facilities smelter_graph = active_facilities g' /\
  fst (ProductionGraph.calculate_production_rates smelter_graph)
  = fst (ProductionGraph.calculate_production_rates g').
Proof.
  cbv zeta. split; [reflexivity|]. split; [reflexivity|].
  apply rates_depend_on_nodes_and_active_facilities; reflexivity.
Defined.

(** ** Switching a facility off and deleting it *)

Lemma flat_map_values_set {K V A : Type} `{Key K} (F : V -> list A)
    (d : Dict.t K V) (k : K) (v v' : V) :
  F v = F v' ->
  flat_map F (Dict.values (Dict.set d k v))
  = flat_map F (Dict.values (Dict.set d k v')).
Proof.
  intros E. unfold Dict.values.
  induction d as [|[k0 v0] d IH]; cbn.
  - rewrite E. reflexivity.
  - destruct (key_eqb k0 k); cbn; [rewrite E | rewrite IH]; reflexivity.
Qed.

Lemma filter_flat_map {A B : Type} (P : B -> bool) (F : A -> list B)
    (xs : list A) :
  filter P (flat_map F xs) = flat_map (fun x => filter P (F x)) xs.
Proof.
  induction xs as [|x xs IH]; cbn; [reflexivity|].
  rewrite filter_app, IH. reflexivity.
Qed.

(** In a dictionary of facilities, writing a switched-off facility over an
    entry leaves the same active facilities as removing the entry. *)
Lemma active_values_off (fs : Dict.t Z Facility.t) (fid : Z)
    (f f' : Facility.t) :
  Dict.get fs fid = Some f -> Facility.is_active f' = false ->
  filter Facility.is_active (Dict.values (Dict.set fs fid f'))
  = filter Facility.is_active (Dict.values (Dict.remove fs fid)).
Proof.
  intros G Ha. unfold Dict.values.
  induction fs as [|[k0 f0] fs IH]; cbn in *; [discriminate|].
  destruct (Z.eqb k0 fid); cbn.
  - rewrite Ha. reflexivity.
  - rewrite (IH G). reflexivity.
Qed.

(** X3: for an active facility [f] stored under its id in a base [b] stored
    under its id, the global query gives the same answer after
    [f.toggle_active_state()] as after [delete_facility(base_id,
    facility_id)]: a switched-off facility counts for nothing. *)
Theorem switched_off_is_as_deleted (g : ProductionGraph.t) (b : Base.t)
    (f : Facility.t) :
  Dict.get (ProductionGraph.bases g) (Base.base_id b) = Some b ->
  Dict.get (Base.facilities b) (Facility.facility_id f) = Some f ->
  Facility.is_active f = true ->
  fst (ProductionGraph.calculate_production_rates
         (with_facility g b (Facility.toggle_active_state f)))
  = fst (ProductionGraph.calculate_production_rates
           (snd (ProductionGraph.delete_facility
                   (Base.base_id b) (Facility.facility_id f) g))).
Proof.
  intros Gb Gf Ha.
  apply rates_of_nodes_and_active.
  - unfold all_nodes, with_facility. cbn. rewrite Gb. cbn.
    f_equal. apply flat_map_values_set. reflexivity.
  - unfold active_facilities, all_facilities, with_facility. cbn.
    rewrite Gb. cbn. rewrite !filter_flat_map.
    apply flat_map_values_set. cbn.
    apply active_values_off with (f := f); [exact Gf|].
    cbn. rewrite Ha. reflexivity.
Qed.

Lemma switched_off_is_as_deleted_witness :
  fst (ProductionGraph.calculate_production_rates
         (with_facility smelter_graph smelter_base
            (Facility.toggle_active_state smelter)))
  = Ok ([("Iron Ore"%string, 60)], [], [])
  /\ fst (ProductionGraph.calculate_production_rates
            (snd (ProductionGraph.delete_facility 1 1 smelter_graph)))
     = Ok ([("Iron Ore"%string, 60)], [], []).
Proof.
  assert (E : fst (ProductionGraph.calculate_production_rates
                 (snd (ProductionGraph.delete_facility 1 1 smelter_graph)))
              = Ok ([("Iron Ore"%string, 60)], [], []))
    by (vm_compute; reflexivity).
  split; [|exact E].
  rewrite <- E.
  apply (switched_off_is_as_deleted smelter_graph smelter_base smelter);
    reflexivity.
Defined.

(** ** Graphs without a shortage, graphs of one base *)

Lemma shortage_pass_balanced (g : ProductionGraph.t)
    (es : list (string * float)) (st : rates * factors) :
  (forall item ci, In (item, ci) es ->
     (Dict.get_default (fst st) item 0 <? ci) = false) ->
  ProductionGraph.shortage_pass g es st = Ok st.
Proof.
  unfold ProductionGraph.shortage_pass. destruct st as [p lf]. cbn [fst].
  induction es as [|[item ci] es IH]; intros Hb; cbn [for_each];
    [reflexivity|].
  rewrite propagate_shortage_unfold, (Hb item ci (or_introl eq_refl)).
  cbn [bind]. apply IH. intros i c Hi. apply Hb. right. exact Hi.
Qed.

Lemma balanced_totals (g : ProductionGraph.t) (c p : rates) :
  ProductionGraph.aggregation_passes g = Ok (c, p) ->
  (forall item ci, In (item, ci) (Dict.items c) ->
     (Dict.get_default p item 0 <? ci) = false) ->
  fst (ProductionGraph.calculate_production_rates g) = Ok (p, c, []).
Proof.
  intros A Hb. cbn. unfold ProductionGraph.calculate_production_rates_body.
  rewrite A. cbn [bind]. rewrite shortage_pass_balanced; [reflexivity|].
  exact Hb.
Qed.

(** X4: when, after the aggregation passes, no consumption total exceeds
    the production total of its resource, calculate_production_rates returns
    the aggregated totals unchanged and an empty limiting-factors map. *)
Theorem balanced_graph_keeps_totals (g : ProductionGraph.t) (c p : rates) :
  ProductionGraph.aggregation_passes g = Ok (c, p) ->
  (forall item ci, In (item, ci) (Dict.items c) ->
     (Dict.get_default p item 0 <? ci) = false) ->
  fst (ProductionGraph.calculate_production_rates g) = Ok (p, c, []).
Proof.
  intros A Hb. exact (balanced_totals g c p A Hb).
Qed.

Lemma balanced_graph_keeps_totals_witness :
  ProductionGraph.aggregation_passes smelter_graph
  = Ok ([("Iron Ore"%string, 30)],
        [("Iron Ore"%string, 60); ("Iron Ingot"%string, 30)])
  /\ fst (ProductionGraph.calculate_production_rates smelter_graph)
     = Ok ([("Iron Ore"%string, 60); ("Iron Ingot"%string, 30)],
           [("Iron Ore"%string, 30)], []).
Proof.
  assert (A : ProductionGraph.aggregation_passes smelter_graph
    = Ok ([("Iron Ore"%string, 30)],
          [("Iron Ore"%string, 60); ("Iron Ingot"%string, 30)]))
    by (vm_compute; reflexivity).
  split; [exact A|].
  apply (balanced_graph_keeps_totals smelter_graph _ _ A).
  intros item ci [[= <- <-]|[]]. reflexivity.
Defined.

(** X5: for a graph that holds one base and no unlinked node, the per-base
    query of that base returns the totals of the aggregation passes of the
    global query (or raises what they raise); so when no resource is short
    the two queries report the same production and consumption. *)
Theorem single_base_queries_agree (g : ProductionGraph.t) (b : Base.t) :
  ProductionGraph.bases g = [(Base.base_id b, b)] ->
  ProductionGraph.unlinked_nodes g = [] ->
  fst (ProductionGraph.calculate_production_rates_for_base (Base.base_id b) g)
  = ('(c, p) <- ProductionGraph.aggregation_passes g ;; Ok (p, c))
  /\ (forall c p,
        ProductionGraph.aggregation_passes g = Ok (c, p) ->
        (forall item ci, In (item, ci) (Dict.items c) ->
           (Dict.get_default p item 0 <? ci) = false) ->
        fst (ProductionGraph.calculate_production_rates g) = Ok (p, c, []) /\
        fst (ProductionGraph.calculate_production_rates_for_base
               (Base.base_id b) g) = Ok (p, c)).
Proof.
  intros Hb Hu.
  assert (E : fst (ProductionGraph.calculate_production_rates_for_base
                     (Base.base_id b) g)
              = ('(c, p) <- ProductionGraph.aggregation_passes g ;; Ok (p, c))).
  { cbn. unfold ProductionGraph.calculate_production_rates_for_base_body,
      ProductionGraph.aggregation_passes, ProductionGraph.raw_production_pass,
      ProductionGraph.facility_pass.
    rewrite Hb, Hu. cbn [Dict.get key_eqb Z_Key Dict.values map fst snd
                         for_each].
    rewrite Z.eqb_refl.
    destruct (for_each (Dict.values (Base.nodes b)) accumulate_node [])
      as [raw|e]; cbn [bind]; [|reflexivity].
    destruct (for_each (Dict.values (Base.facilities b)) accumulate_facility
                ([], raw)) as [[c p]|e]; cbn [bind]; reflexivity. }
  split; [exact E|].
  intros c p A Hbal. split.
  - exact (balanced_totals g c p A Hbal).
  - rewrite E, A. reflexivity.
Qed.

Lemma single_base_queries_agree_witness :
  fst (ProductionGraph.calculate_production_rates_for_base 1 smelter_graph)
  = Ok ([("Iron Ore"%string, 60); ("Iron Ingot"%string, 30)],
        [("Iron Ore"%string, 30)])
  /\ fst (ProductionGraph.calculate_production_rates smelter_graph)
     = Ok ([("Iron Ore"%string, 60); ("Iron Ingot"%string, 30)],
           [("Iron Ore"%string, 30)], []).
Proof.
  assert (A : ProductionGraph.aggregation_passes smelter_graph
    = Ok ([("Iron Ore"%string, 30)],
          [("Iron Ore"%string, 60); ("Iron Ingot"%string, 30)]))
    by (vm_compute; reflexivity).
  destruct (proj2 (single_base_queries_agree smelter_graph smelter_base
                     eq_refl eq_refl) _ _ A) as [E1 E2].
  - intros item ci [[= <- <-]|[]]. reflexivity.
  - split; [exact E2 | exact E1].
Defined.

(** ** The keys of the returned maps *)

Lemma mem_of_In {K V : Type} `{Key K} (d : Dict.t K V) (k : K) (v : V) :
  In (k, v) (Dict.items d) -> Dict.mem d k = true.
Proof.
  intros I. apply mem_In_keys. unfold Dict.keys, Dict.items in *.
  apply (in_map fst) in I. exact I.
Qed.

Lemma mem_same_keys {K V : Type} `{Key K} (d d' : Dict.t K V) (k : K) :
  Dict.keys d = Dict.keys d' -> Dict.mem d k = Dict.mem d' k.
Proof.
  intros E. destruct (Dict.mem d' k) eqn:M.
  - apply mem_In_keys. rewrite E. apply mem_In_keys. exact M.
  - destruct (Dict.mem d k) eqn:M'; [|reflexivity].
    apply mem_In_keys in M'. rewrite E in M'. apply mem_In_keys in M'.
    congruence.
Qed.

Lemma limit_output_keys (g : ProductionGraph.t) (c p0 : rates)
    (item : string) (ratio : float) (st : rates * factors)
    (output : string * float) :
  Dict.mem c item = true ->
  In output (limited_outputs g item) ->
  sweep_keys g c p0 st ->
  match ProductionGraph.limit_output item ratio st output with
  | Ok st' => sweep_keys g c p0 st'
  | Raise _ => True
  end.
Proof.
  destruct st as [p lf], output as [o rate]. intros Mc Ho (Hk & Hm & Hl).
  cbn [fst snd] in *.
  destruct (ProductionGraph.limit_output item ratio (p, lf) (o, rate))
    as [[p' lf']|e] eqn:E; [|exact I].
  destruct (limit_output_inv _ _ _ _ _ _ _ _ E)
    as (cur & v & G & _ & -> & Lo & Lk).
  assert (Mo : Dict.mem p0 o = true).
  { rewrite <- (mem_same_keys p p0 o Hk). unfold Dict.mem. rewrite G.
    reflexivity. }
  assert (Io : In o (map fst (limited_outputs g item)))
    by (apply (in_map fst) in Ho; exact Ho).
  split; [|split]; cbn [fst snd].
  - rewrite keys_set. unfold Dict.mem. rewrite G. exact Hk.
  - intros k M. destruct (string_dec o k) as [<-|N]; [left; exact Mo|].
    apply Hm. unfold Dict.mem in *. rewrite <- (Lk k N). exact M.
  - intros k l x Gk Ix. destruct (string_dec o k) as [<-|N].
    + rewrite Lo in Gk. injection Gk as <-.
      apply in_app_or in Ix. destruct Ix as [Ix|[<-|[]]]; [|auto].
      unfold Dict.get_default in Ix.
      destruct (Dict.get lf o) as [old|] eqn:Go; [|destruct Ix].
      exact (Hl o old x Go Ix).
    + rewrite (Lk k N) in Gk. exact (Hl k l x Gk Ix).
Qed.

Lemma propagate_shortage_keys (g : ProductionGraph.t) (c p0 : rates)
    (st : rates * factors) (entry : string * float) :
  In entry (Dict.items c) ->
  sweep_keys g c p0 st ->
  match ProductionGraph.propagate_shortage g st entry with
  | Ok st' => sweep_keys g c p0 st'
  | Raise _ => True
  end.
Proof.
  destruct st as [p lf], entry as [item ci]. intros Hi Hs.
  pose proof (mem_of_In c item ci Hi) as Mc.
  rewrite propagate_shortage_unfold.
  destruct (Dict.get_default p item 0 <? ci); [|exact Hs].
  destruct (PyFloat.truediv _ _) as [q|e]; cbn [bind]; [|exact I].
  destruct (round_float q 4) as [ratio|e]; cbn [bind]; [|exact I].
  apply (for_each_invariant (sweep_keys g c p0) (fun _ => True)).
  - intros s x Hx Hsx. exact (limit_output_keys g c p0 item ratio s x Mc Hx Hsx).
  - destruct Hs as (Hk & Hm & Hl). split; [exact Hk|]. cbn [fst snd] in *.
    split.
    + intros k M. rewrite mem_set in M. cbn [key_eqb string_Key] in M.
      destruct (String.eqb item k) eqn:Eq;
        [apply String.eqb_eq in Eq; subst k; right; exact Mc|].
      apply Hm. exact M.
    + intros k l x Gk Ix. rewrite get_set in Gk.
      cbn [key_eqb string_Key] in Gk.
      destruct (String.eqb item k); [|exact (Hl k l x Gk Ix)].
      injection Gk as <-. destruct Ix.
Qed.

(** X6: in the maps returned by calculate_production_rates, the consumption
    map is the one the aggregation passes built and the production map has
    exactly the keys, in the same order, of the aggregated production map
    (the shortage pass changes values only); every key of the
    limiting-factors map is a key of the production or of the consumption
    map; and every factor recorded for an item is a key of the consumption
    map that some active facility producing the item lists as an input. *)
Theorem reported_keys (g : ProductionGraph.t) (p c : rates) (lf : factors) :
  fst (ProductionGraph.calculate_production_rates g) = Ok (p, c, lf) ->
  (exists p0, ProductionGraph.aggregation_passes g = Ok (c, p0) /\
              Dict.keys p = Dict.keys p0) /\
  (forall k, Dict.mem lf k = true ->
     Dict.mem p k = true \/ Dict.mem c k = true) /\
  (forall k l x, Dict.get lf k = Some l -> In x l ->
     Dict.mem c x = true /\
     exists b f rate,
       In b (Dict.values (ProductionGraph.bases g)) /\
       In f (Dict.values (Base.facilities b)) /\
       Facility.is_active f = true /\
       (exists r0, In (x, r0) (adjusted_inputs f)) /\
       In (k, rate) (adjusted_outputs f)).
Proof.
  cbn. intros E.
  destruct (calculate_production_rates_inv _ _ _ _ E) as (p0 & A & P).
  pose proof (for_each_invariant (sweep_keys g c p0) (fun _ => True)
    (Dict.items c) (ProductionGraph.propagate_shortage g) (p0, [])) as H.
  unfold ProductionGraph.shortage_pass in P. rewrite P in H.
  destruct H as (Hk & Hm & Hl).
  - intros s x Hx Hs. exact (propagate_shortage_keys g c p0 s x Hx Hs).
  - split; [reflexivity|]. split.
    + intros k M. discriminate M.
    + intros k l x G. discriminate G.
  - cbn [fst snd] in *. split; [exists p0; auto|]. split.
    + intros k M. rewrite (mem_same_keys p p0 k Hk). exact (Hm k M).
    + intros k l x G Ix. destruct (Hl k l x G Ix) as [Mc Io].
      split; [exact Mc|].
      apply in_map_iff in Io. destruct Io as ([k' rate] & Ek & Io).
      cbn in Ek. subst k'.
      apply limited_outputs_spec in Io.
      destruct Io as (b & f & Hb & Hf & Ha & Hi & Ho).
      exists b, f, rate. auto.
Qed.

Lemma reported_keys_witness :
  fst (ProductionGraph.calculate_production_rates Scenario.chain)
  = Ok ([("B"%string, 0); ("C"%string, 0)],
        [("A"%string, 10); ("B"%string, 10)],
        [("A"%string, []); ("B"%string, []); ("C"%string, ["B"%string])])
  /\ Dict.mem [("A"%string, 10); ("B"%string, 10)] "B"%string = true.
Proof.
  assert (E : fst (ProductionGraph.calculate_production_rates Scenario.chain)
    = Ok ([("B"%string, 0); ("C"%string, 0)],
          [("A"%string, 10); ("B"%string, 10)],
          [("A"%string, []); ("B"%string, []); ("C"%string, ["B"%string])]))
    by (vm_compute; reflexivity).
  split; [exact E|].
  exact (proj1 (proj2 (proj2 (reported_keys Scenario.chain _ _ _ E))
                  "C"%string ["B"%string] "B"%string eq_refl
                  (or_introl eq_refl))).
Defined.

(** ** Clock speed: setting it again, setting it back *)

Lemma clamp_clock_idempotent (x : float) :
  clamp_clock (clamp_clock x) = clamp_clock x.
Proof. apply clamp_clock_inside, clamp_clock_range. Qed.

(** X7: storing a node's or a facility's own clock speed again changes
    nothing (the clamp is idempotent), and setting the clock of a freshly
    constructed node back to 100 after any change gives back the node the
    constructor built, cached output rate included. *)
Theorem clock_speed_set_again (n n1 : ResourceNode.t) (x : float) :
  ResourceNode.set_clock_speed n x = Ok n1 ->
  ResourceNode.set_clock_speed n1 (ResourceNode.clock_speed n1) = Ok n1
  /\ (forall id rt p mt mr,
        ResourceNode.init id rt p mt mr = Ok n ->
        ResourceNode.set_clock_speed n1 100 = Ok n)
  /\ (forall f : Facility.t,
        Facility.set_clock_speed (Facility.set_clock_speed f x)
          (Facility.clock_speed (Facility.set_clock_speed f x))
        = Facility.set_clock_speed f x).
Proof.
  intros E. destruct (set_clock_speed_inv _ _ _ E) as (m & G & ->).
  split; [|split].
  - unfold ResourceNode.set_clock_speed, ResourceNode.calculate_output_rate.
    cbn [ResourceNode.node_id ResourceNode.resource_type ResourceNode.purity
         ResourceNode.miner_type ResourceNode.miner_rate
         ResourceNode.clock_speed ResourceNode.output_rate].
    rewrite G. cbn [bind].
    fold (clamp_clock (clamp_clock x)). rewrite clamp_clock_idempotent.
    reflexivity.
  - intros id rt p mt mr Ei.
    destruct (init_inv _ _ _ _ _ _ Ei) as (m' & G' & ->).
    cbn [ResourceNode.purity ResourceNode.miner_rate] in G.
    assert (m' = m) by congruence. subst m'.
    unfold ResourceNode.set_clock_speed, ResourceNode.calculate_output_rate.
    cbn [ResourceNode.node_id ResourceNode.resource_type ResourceNode.purity
         ResourceNode.miner_type ResourceNode.miner_rate
         ResourceNode.clock_speed ResourceNode.output_rate].
    rewrite G'. reflexivity.
  - intros f. unfold Facility.set_clock_speed.
    cbn [Facility.facility_id Facility.facility_type Facility.recipe
         Facility.input_items Facility.output_items Facility.clock_speed
         Facility.is_active].
    fold (clamp_clock x). fold (clamp_clock (clamp_clock x)).
    rewrite clamp_clock_idempotent. reflexivity.
Qed.

Lemma clock_speed_set_again_witness :
  exists n1,
    ResourceNode.set_clock_speed iron_node 300 = Ok n1 /\
    ResourceNode.set_clock_speed n1 (ResourceNode.clock_speed n1) = Ok n1 /\
    ResourceNode.set_clock_speed n1 100 = Ok iron_node.
Proof.
  eexists. split; [reflexivity|].
  pose proof (clock_speed_set_again iron_node _ 300 eq_refl) as (H1 & H2 & _).
  split; [exact H1|]. exact (H2 _ _ _ _ _ iron_node_init).
Defined.

(** ** Facility.get_production_rates *)

Lemma find_app {A : Type} (P : A -> bool) (xs ys : list A) :
  find P (xs ++ ys)
  = match find P xs with Some x => Some x | None => find P ys end.
Proof.
  induction xs as [|x xs IH]; cbn; [reflexivity|].
  destruct (P x); [reflexivity | exact IH].
Qed.

Lemma fold_set_get {V : Type} (pairs : list (string * V))
    (d : Dict.t string V) (k : string) :
  Dict.get (fold_left (fun d '(k, v) => Dict.set d k v) pairs d) k
  = match find (fun e => String.eqb (fst e) k) (rev pairs) with
    | Some e => Some (snd e)
    | None => Dict.get d k
    end.
Proof.
  revert d. induction pairs as [|[k0 v0] pairs IH]; intros d; cbn [fold_left rev].
  - reflexivity.
  - rewrite IH, find_app. cbn [find fst snd].
    destruct (find (fun e => String.eqb (fst e) k) (rev pairs));
      [reflexivity|].
    rewrite get_set. cbn [key_eqb string_Key].
    destruct (String.eqb k0 k); reflexivity.
Qed.

Lemma fold_set_NoDup {V : Type} (pairs : list (string * V))
    (d : Dict.t string V) :
  NoDup (Dict.keys d) ->
  NoDup (Dict.keys (fold_left (fun d '(k, v) => Dict.set d k v) pairs d)).
Proof.
  revert d. induction pairs as [|[k0 v0] pairs IH]; intros d ND;
    cbn [fold_left]; [exact ND|].
  apply IH, NoDup_keys_set, ND.
Qed.

(** X8: get_production_rates reports one rate per item: for an item listed
    several times in input_items (or output_items) it is the rate of the
    last entry, the earlier entries being dropped, whereas
    get_adjusted_rates keeps every entry; an item just added with
    set_input_item is reported with the rate just given. *)
Theorem get_production_rates_last_entry (f : Facility.t) (item : string) :
  Dict.get (fst (Facility.get_production_rates f)) item
  = option_map snd (find (fun e => String.eqb (fst e) item)
                         (rev (Facility.input_items f)))
  /\ Dict.get (snd (Facility.get_production_rates f)) item
     = option_map snd (find (fun e => String.eqb (fst e) item)
                            (rev (Facility.output_items f)))
  /\ NoDup (Dict.keys (fst (Facility.get_production_rates f)))
  /\ NoDup (Dict.keys (snd (Facility.get_production_rates f)))
  /\ (forall rate,
        Dict.get (fst (Facility.get_production_rates
                         (Facility.set_input_item f item rate))) item
        = Some rate /\
        List.length (fst (Facility.get_adjusted_rates
                            (Facility.set_input_item f item rate)))
        = if Facility.is_active f
          then S (List.length (Facility.input_items f)) else 0%nat).
Proof.
  unfold Facility.get_production_rates, dict_of_pairs. cbn [fst snd].
  rewrite !fold_set_get. cbn [Dict.get].
  split; [|split; [|split; [|split]]].
  - destruct (find _ _); reflexivity.
  - destruct (find _ _); reflexivity.
  - apply fold_set_NoDup. constructor.
  - apply fold_set_NoDup. constructor.
  - intros rate. split.
    + rewrite fold_set_get. cbn [Facility.set_input_item Facility.input_items].
      rewrite rev_app_distr. cbn [rev app find fst snd].
      rewrite String.eqb_refl. reflexivity.
    + unfold Facility.get_adjusted_rates.
      cbn [Facility.set_input_item Facility.input_items Facility.is_active].
      destruct (Facility.is_active f); cbn [negb fst]; [|reflexivity].
      rewrite length_map, length_app. cbn. apply Nat.add_1_r.
Qed.

(** ** The catalogue *)

Lemma find_filter_neg (name : string) (rs : list Recipe.t) :
  find (fun r => String.eqb (Recipe.name r) name)
       (filter (fun r => negb (String.eqb (Recipe.name r) name)) rs) = None.
Proof.
  induction rs as [|r rs IH]; cbn; [reflexivity|].
  destruct (String.eqb (Recipe.name r) name) eqn:E; cbn; [exact IH|].
  rewrite E. exact IH.
Qed.

Lemma find_filter_other (name name' : string) (rs : list Recipe.t) :
  name' <> name ->
  find (fun r => String.eqb (Recipe.name r) name')
       (filter (fun r => negb (String.eqb (Recipe.name r) name)) rs)
  = find (fun r => String.eqb (Recipe.name r) name') rs.
Proof.
  intros N. induction rs as [|r rs IH]; cbn; [reflexivity|].
  destruct (String.eqb (Recipe.name r) name) eqn:E; cbn.
  - apply String.eqb_eq in E.
    destruct (String.eqb_spec (Recipe.name r) name') as [E'|_];
      [congruence | exact IH].
  - destruct (String.eqb (Recipe.name r) name'); [reflexivity | exact IH].
Qed.

(** X9: recipes are looked up by name, first match first.  After
    delete_recipe(name) no recipe of that name is found and the lookup of
    every other name is unchanged.  add_recipe does not replace: if a recipe
    of that name exists already, the lookup still returns the old one;
    otherwise it returns the recipe just added.  Other names are unaffected
    by add_recipe. *)
Theorem recipe_lookup (gd : GameData.t) (name : string) :
  GameData.get_recipe_by_name (GameData.delete_recipe gd name) name = None
  /\ (forall name', name' <> name ->
        GameData.get_recipe_by_name (GameData.delete_recipe gd name) name'
        = GameData.get_recipe_by_name gd name')
  /\ (forall bt ins outs,
        GameData.get_recipe_by_name
          (GameData.add_recipe gd name bt ins outs) name
        = match GameData.get_recipe_by_name gd name with
          | Some old => Some old
          | None => Some (Recipe.mk name bt ins outs)
          end)
  /\ (forall name' bt ins outs, name' <> name ->
        GameData.get_recipe_by_name
          (GameData.add_recipe gd name bt ins outs) name'
        = GameData.get_recipe_by_name gd name').
Proof.
  unfold GameData.get_recipe_by_name. cbn [GameData.delete_recipe
    GameData.add_recipe GameData.recipes].
  split; [apply find_filter_neg|].
  split; [intros name' N; apply find_filter_other; exact N|].
  split.
  - intros bt ins outs. rewrite find_app. cbn [find Recipe.name].
    rewrite String.eqb_refl. reflexivity.
  - intros name' bt ins outs N. rewrite find_app. cbn [find Recipe.name].
    destruct (find _ (GameData.recipes gd)); [reflexivity|].
    destruct (String.eqb_spec name name') as [E|_]; [congruence|reflexivity].
Qed.

Lemma catalogue_counters_grow (gd gd' : GameData.t) :
  catalogue_steps gd gd' ->
  (GameData.next_base_id gd <= GameData.next_base_id gd')%Z /\
  (GameData.next_node_id gd <= GameData.next_node_id gd')%Z /\
  (GameData.next_facility_id gd <= GameData.next_facility_id gd')%Z.
Proof.
  induction 1 as [gd|gd gd1 gd2 _ IH S]; [lia|].
  destruct S; cbn in *; lia.
Qed.

(** X10: an identifier is never handed out twice.  Whatever calls of the
    catalogue's methods come in between, a later get_next_base_id returns a
    strictly greater id than an earlier one, and so do get_next_node_id and
    get_next_facility_id; the first ids are 1. *)
Theorem identifiers_never_repeat (gd gd' : GameData.t) :
  (catalogue_steps (snd (GameData.get_next_base_id gd)) gd' ->
   (fst (GameData.get_next_base_id gd)
    < fst (GameData.get_next_base_id gd'))%Z)
  /\ (catalogue_steps (snd (GameData.get_next_node_id gd)) gd' ->
      (fst (GameData.get_next_node_id gd)
       < fst (GameData.get_next_node_id gd'))%Z)
  /\ (catalogue_steps (snd (GameData.get_next_facility_id gd)) gd' ->
      (fst (GameData.get_next_facility_id gd)
       < fst (GameData.get_next_facility_id gd'))%Z)
  /\ fst (GameData.get_next_base_id GameData.init) = 1%Z
  /\ fst (GameData.get_next_node_id GameData.init) = 1%Z
  /\ fst (GameData.get_next_facility_id GameData.init) = 1%Z.
Proof.
  split; [|split; [|split; [|repeat split]]]; intros S;
    apply catalogue_counters_grow in S; cbn in *; lia.
Qed.

Lemma identifiers_never_repeat_witness :
  (fst (GameData.get_next_node_id GameData.init)
   < fst (GameData.get_next_node_id
            (GameData.add_resource_type
               (snd (GameData.get_next_node_id GameData.init)) "Iron Ore")))%Z.
Proof.
  apply (proj1 (proj2 (identifiers_never_repeat GameData.init _))).
  eapply csteps_step; [apply csteps_refl | apply cstep_add_resource_type].
Defined.

(** ** Deleting from a dictionary *)

Section RemoveFacts.
Context {K V : Type} `{Key K}.

Lemma get_not_In (d : Dict.t K V) (k : K) :
  ~ In k (Dict.keys d) -> Dict.get d k = None.
Proof.
  induction d as [|[k' v'] d IH]; cbn; [reflexivity|].
  intros N. destruct (key_eqb k' k) eqn:E.
  - apply key_eqb_eq in E. tauto.
  - apply IH. tauto.
Qed.

Lemma get_remove_same (d : Dict.t K V) (k : K) :
  NoDup (Dict.keys d) -> Dict.get (Dict.remove d k) k = None.
Proof.
  induction d as [|[k' v'] d IH]; cbn; [reflexivity|].
  intros ND. inversion ND as [|? ? N ND']; subst.
  destruct (key_eqb k' k) eqn:E; cbn.
  - apply key_eqb_eq in E. subst k'. apply get_not_In. exact N.
  - rewrite E. apply IH. exact ND'.
Qed.

Lemma get_remove_other (d : Dict.t K V) (k k' : K) :
  k <> k' -> Dict.get (Dict.remove d k) k' = Dict.get d k'.
Proof.
  intros N. induction d as [|[k0 v0] d IH]; cbn; [reflexivity|].
  destruct (key_eqb k0 k) eqn:E; cbn.
  - apply key_eqb_eq in E. subst k0. rewrite (key_eqb_neq _ _ N). reflexivity.
  - destruct (key_eqb k0 k'); [reflexivity | exact IH].
Qed.

Lemma remove_absent (d : Dict.t K V) (k : K) :
  Dict.get d k = None -> Dict.remove d k = d.
Proof.
  induction d as [|[k0 v0] d IH]; cbn; [reflexivity|].
  destruct (key_eqb k0 k); [discriminate|].
  intros G. rewrite (IH G). reflexivity.
Qed.

Lemma remove_set_fresh (d : Dict.t K V) (k : K) (v : V) :
  Dict.get d k = None -> Dict.remove (Dict.set d k v) k = d.
Proof.
  induction d as [|[k0 v0] d IH]; cbn.
  - rewrite key_eqb_refl. reflexivity.
  - destruct (key_eqb k0 k) eqn:E; [discriminate|].
    intros G. cbn. rewrite E, (IH G). reflexivity.
Qed.

Lemma keys_remove_incl (d : Dict.t K V) (k x : K) :
  In x (Dict.keys (Dict.remove d k)) -> In x (Dict.keys d).
Proof.
  induction d as [|[k0 v0] d IH]; cbn; [tauto|].
  destruct (key_eqb k0 k); cbn; tauto.
Qed.

Lemma NoDup_keys_remove (d : Dict.t K V) (k : K) :
  NoDup (Dict.keys d) -> NoDup (Dict.keys (Dict.remove d k)).
Proof.
  induction d as [|[k0 v0] d IH]; cbn; [auto|].
  intros ND. inversion ND as [|? ? N ND']; subst.
  destruct (key_eqb k0 k); cbn; [exact ND'|].
  constructor; [|apply IH; exact ND'].
  intros I. apply N. exact (keys_remove_incl _ _ _ I).
Qed.

(** The entry of a key, cut out of the dictionary. *)
Lemma get_split (d : Dict.t K V) (k : K) (v : V) :
  Dict.get d k = Some v ->
  exists d1 d2, d = d1 ++ (k, v) :: d2 /\ ~ In k (Dict.keys d1).
Proof.
  induction d as [|[k0 v0] d IH]; cbn; [discriminate|].
  destruct (key_eqb k0 k) eqn:E.
  - apply key_eqb_eq in E. subst k0. intros [= ->].
    exists [], d. cbn. auto.
  - intros G. destruct (IH G) as (d1 & d2 & -> & N).
    exists ((k0, v0) :: d1), d2. split; [reflexivity|].
    cbn. intros [->|I]; [|exact (N I)].
    rewrite key_eqb_refl in E. discriminate.
Qed.

Lemma set_split (d1 d2 : Dict.t K V) (k : K) (v v' : V) :
  ~ In k (Dict.keys d1) ->
  Dict.set (d1 ++ (k, v) :: d2) k v' = d1 ++ (k, v') :: d2.
Proof.
  induction d1 as [|[k0 v0] d1 IH]; cbn; intros N.
  - rewrite key_eqb_refl. reflexivity.
  - rewrite key_eqb_neq by tauto. rewrite IH by tauto. reflexivity.
Qed.


Lemma set_fresh (d : Dict.t K V) (k : K) (v : V) :
  Dict.get d k = None -> Dict.set d k v = d ++ [(k, v)].
Proof.
  induction d as [|[k0 v0] d IH]; cbn; [reflexivity|].
  destruct (key_eqb k0 k); [discriminate|].
  intros G. rewrite (IH G). reflexivity.
Qed.

End RemoveFacts.

(** ** Bases and unlinked nodes of a graph *)

(** X11: add_base stores the base under its id (a second add_base with the
    same id replaces the first, in place); delete_base removes the base of
    that id and nothing else, and does nothing for an id that is not a key;
    so delete_base after add_base of a new id gives back the graph. *)
Theorem add_and_delete_base (g : ProductionGraph.t) (b : Base.t) (id : Z) :
  NoDup (Dict.keys (ProductionGraph.bases g)) ->
  let added := snd (ProductionGraph.add_base b g) in
  let deleted := snd (ProductionGraph.delete_base id g) in
  Dict.get (ProductionGraph.bases added) (Base.base_id b) = Some b
  /\ (forall id', Base.base_id b <> id' ->
        Dict.get (ProductionGraph.bases added) id'
        = Dict.get (ProductionGraph.bases g) id')
  /\ NoDup (Dict.keys (ProductionGraph.bases added))
  /\ Dict.get (ProductionGraph.bases deleted) id = None
  /\ (forall id', id <> id' ->
        Dict.get (ProductionGraph.bases deleted) id'
        = Dict.get (ProductionGraph.bases g) id')
  /\ ProductionGraph.unlinked_nodes deleted = ProductionGraph.unlinked_nodes g
  /\ NoDup (Dict.keys (ProductionGraph.bases deleted))
  /\ (Dict.get (ProductionGraph.bases g) id = None -> deleted = g)
  /\ (Dict.get (ProductionGraph.bases g) (Base.base_id b) = None ->
      snd (ProductionGraph.delete_base (Base.base_id b) added) = g).
Proof.
  intros ND. cbv zeta. destruct g as [bs pool]. cbn in *.
  split; [apply get_set_same|].
  split; [intros id' N; apply get_set_other; exact N|].
  split; [apply NoDup_keys_set; exact ND|].
  unfold Dict.mem.
  destruct (Dict.get bs id) as [b0|] eqn:G; cbn.
  - split; [apply get_remove_same; exact ND|].
    split; [intros id' N; apply get_remove_other; exact N|].
    split; [reflexivity|].
    split; [apply NoDup_keys_remove; exact ND|].
    split; [discriminate|].
    intros Gb. rewrite get_set_same. rewrite (remove_set_fresh _ _ _ Gb).
    reflexivity.
  - split; [exact G|]. split; [reflexivity|]. split; [reflexivity|].
    split; [exact ND|]. split; [reflexivity|].
    intros Gb. rewrite get_set_same. rewrite (remove_set_fresh _ _ _ Gb).
    reflexivity.
Qed.

Lemma add_and_delete_base_witness :
  snd (ProductionGraph.delete_base 2
         (snd (ProductionGraph.add_base (Base.init 2 "Outpost") smelter_graph)))
  = smelter_graph.
Proof.
  assert (ND : NoDup (Dict.keys (ProductionGraph.bases smelter_graph)))
    by (repeat constructor; cbn; tauto).
  exact (proj2 (proj2 (proj2 (proj2 (proj2 (proj2 (proj2 (proj2
    (add_and_delete_base smelter_graph (Base.init 2 "Outpost") 2 ND))))))))
    eq_refl).
Defined.

(** X12: add_unlinked_node stores the node under its id and
    get_unlinked_nodes then returns it; remove_unlinked_node removes the
    node of that id and nothing else, does nothing when the id is not in the
    pool, and after add_unlinked_node of a new id gives back the graph; none
    of the three touches the bases. *)
Theorem add_and_remove_unlinked_node (g : ProductionGraph.t)
    (n : ResourceNode.t) :
  NoDup (Dict.keys (ProductionGraph.unlinked_nodes g)) ->
  let added := snd (ProductionGraph.add_unlinked_node n g) in
  let removed := snd (ProductionGraph.remove_unlinked_node n g) in
  (exists pool, ProductionGraph.get_unlinked_nodes added = (Ok pool, added) /\
                Dict.get pool (ResourceNode.node_id n) = Some n)
  /\ ProductionGraph.bases added = ProductionGraph.bases g
  /\ Dict.get (ProductionGraph.unlinked_nodes removed) (ResourceNode.node_id n)
     = None
  /\ (forall id', ResourceNode.node_id n <> id' ->
        Dict.get (ProductionGraph.unlinked_nodes removed) id'
        = Dict.get (ProductionGraph.unlinked_nodes g) id')
  /\ ProductionGraph.bases removed = ProductionGraph.bases g
  /\ (Dict.get (ProductionGraph.unlinked_nodes g) (ResourceNode.node_id n)
      = None ->
      removed = g /\ snd (ProductionGraph.remove_unlinked_node n added) = g).
Proof.
  intros ND. cbv zeta. destruct g as [bs pool]. cbn in *.
  split; [eexists; split; [reflexivity | apply get_set_same]|].
  split; [reflexivity|].
  split; [apply get_remove_same; exact ND|].
  split; [intros id' N; apply get_remove_other; exact N|].
  split; [reflexivity|].
  intros G. rewrite (remove_absent _ _ G), (remove_set_fresh _ _ _ G).
  split; reflexivity.
Qed.

Lemma add_and_remove_unlinked_node_witness :
  snd (ProductionGraph.remove_unlinked_node iron_node
         (snd (ProductionGraph.add_unlinked_node iron_node Scenario.chain)))
  = Scenario.chain.
Proof.
  assert (ND : NoDup (Dict.keys (ProductionGraph.unlinked_nodes Scenario.chain)))
    by constructor.
  exact (proj2 (proj2 (proj2 (proj2 (proj2 (proj2
    (add_and_remove_unlinked_node Scenario.chain iron_node ND))))) eq_refl)).
Defined.

(** ** delete_node, delete_facility and linking a node *)

Lemma delete_node_in_first (pre post : Dict.t Z Base.t) (k : Z) (b : Base.t)
    (id : Z) :
  (forall k' b', In (k', b') pre -> Dict.mem (Base.nodes b') id = false) ->
  Dict.mem (Base.nodes b) id = true ->
  ProductionGraph.delete_node_in (pre ++ (k, b) :: post) id
  = Some (pre ++ (k, base_without_node b id) :: post).
Proof.
  intros Hpre Hb. induction pre as [|[k0 b0] pre IH]; cbn.
  - rewrite Hb. reflexivity.
  - rewrite (Hpre k0 b0 (or_introl eq_refl)).
    rewrite IH; [reflexivity|].
    intros k' b' I. apply (Hpre k' b'). right. exact I.
Qed.

Lemma delete_node_in_none (bs : Dict.t Z Base.t) (id : Z) :
  (forall k b, In (k, b) bs -> Dict.mem (Base.nodes b) id = false) ->
  ProductionGraph.delete_node_in bs id = None.
Proof.
  intros Hn. induction bs as [|[k0 b0] bs IH]; cbn; [reflexivity|].
  rewrite (Hn k0 b0 (or_introl eq_refl)).
  rewrite IH; [reflexivity|].
  intros k b I. apply (Hn k b). right. exact I.
Qed.

Lemma delete_node_in_facilities (bs bs' : Dict.t Z Base.t) (id : Z) :
  ProductionGraph.delete_node_in bs id = Some bs' ->
  flat_map (fun b => Dict.values (Base.facilities b)) (Dict.values bs')
  = flat_map (fun b => Dict.values (Base.facilities b)) (Dict.values bs).
Proof.
  unfold Dict.values. revert bs'.
  induction bs as [|[k0 b0] bs IH]; intros bs';
    cbn [ProductionGraph.delete_node_in]; [discriminate|].
  destruct (Dict.mem (Base.nodes b0) id).
  - intros [= <-]. reflexivity.
  - destruct (ProductionGraph.delete_node_in bs id) as [bs1|];
      cbn [option_map]; [|discriminate].
    intros [= <-]. cbn [map snd flat_map]. rewrite (IH bs1 eq_refl).
    reflexivity.
Qed.

(** X13: delete_node removes the node from the first base, in the order of
    the bases, that holds a node of that id, and then stops: later bases and
    the pool of unlinked nodes keep theirs even if they hold the same id.
    Only when no base holds the id is it removed from the pool.  Facilities
    are never touched. *)
Theorem delete_node_first_holder (g : ProductionGraph.t) (id : Z) :
  (forall pre k b post,
     ProductionGraph.bases g = pre ++ (k, b) :: post ->
     (forall k' b', In (k', b') pre -> Dict.mem (Base.nodes b') id = false) ->
     Dict.mem (Base.nodes b) id = true ->
     snd (ProductionGraph.delete_node id g)
     = ProductionGraph.mk (pre ++ (k, base_without_node b id) :: post)
                          (ProductionGraph.unlinked_nodes g))
  /\ ((forall k b, In (k, b) (ProductionGraph.bases g) ->
         Dict.mem (Base.nodes b) id = false) ->
      snd (ProductionGraph.delete_node id g)
      = ProductionGraph.mk (ProductionGraph.bases g)
          (Dict.remove (ProductionGraph.unlinked_nodes g) id))
  /\ all_facilities (snd (ProductionGraph.delete_node id g))
     = all_facilities g.
Proof.
  unfold ProductionGraph.delete_node. cbn [snd]. split; [|split].
  - intros pre k b post E Hpre Hb.
    rewrite E, (delete_node_in_first pre post k b id Hpre Hb). reflexivity.
  - intros Hn. rewrite (delete_node_in_none _ id Hn). reflexivity.
  - unfold all_facilities.
    destruct (ProductionGraph.delete_node_in (ProductionGraph.bases g) id)
      as [bs'|] eqn:E; cbn [ProductionGraph.bases]; [|reflexivity].
    exact (delete_node_in_facilities _ _ _ E).
Qed.

Lemma delete_node_first_holder_witness :
  snd (ProductionGraph.delete_node 1
         (snd (ProductionGraph.add_unlinked_node iron_node smelter_graph)))
  = ProductionGraph.mk [(1%Z, base_without_node smelter_base 1)]
                       [(1%Z, iron_node)].
Proof.
  apply (proj1 (delete_node_first_holder
                  (snd (ProductionGraph.add_unlinked_node iron_node
                          smelter_graph)) 1)
           [] 1%Z smelter_base []).
  - reflexivity.
  - intros k' b' [].
  - reflexivity.
Defined.

Lemma set_same {K V : Type} `{Key K} (d : Dict.t K V) (k : K) (v : V) :
  Dict.get d k = Some v -> Dict.set d k v = d.
Proof.
  induction d as [|[k0 v0] d IH]; cbn; [discriminate|].
  destruct (key_eqb k0 k) eqn:E.
  - intros [= ->]. reflexivity.
  - intros G. rewrite (IH G). reflexivity.
Qed.

(** X14: delete_facility(base_id, facility_id) leaves the graph as it is
    when the base or the facility is missing; otherwise the base loses that
    facility and nothing else: its other facilities, its nodes, the other
    bases and the unlinked nodes stay as they were. *)
Theorem delete_facility_only (g : ProductionGraph.t) (base_id fid : Z) :
  let g' := snd (ProductionGraph.delete_facility base_id fid g) in
  (Dict.get (ProductionGraph.bases g) base_id = None -> g' = g)
  /\ (forall b, Dict.get (ProductionGraph.bases g) base_id = Some b ->
        Dict.get (Base.facilities b) fid = None -> g' = g)
  /\ (forall b, Dict.get (ProductionGraph.bases g) base_id = Some b ->
        Dict.get (ProductionGraph.bases g') base_id
        = Some (base_without_facility b fid) /\
        (NoDup (Dict.keys (Base.facilities b)) ->
         Dict.get (Base.facilities (base_without_facility b fid)) fid = None) /\
        (forall fid', fid <> fid' ->
           Dict.get (Base.facilities (base_without_facility b fid)) fid'
           = Dict.get (Base.facilities b) fid') /\
        (forall id', base_id <> id' ->
           Dict.get (ProductionGraph.bases g') id'
           = Dict.get (ProductionGraph.bases g) id') /\
        Dict.keys (ProductionGraph.bases g')
        = Dict.keys (ProductionGraph.bases g))
  /\ ProductionGraph.unlinked_nodes g' = ProductionGraph.unlinked_nodes g
  /\ all_nodes g' = all_nodes g.
Proof.
  cbv zeta. unfold ProductionGraph.delete_facility. cbn [snd].
  destruct g as [bs pool]. cbn [ProductionGraph.bases
    ProductionGraph.unlinked_nodes].
  destruct (Dict.get bs base_id) as [b|] eqn:G.
  - fold (base_without_facility b fid).
    split; [discriminate|]. split; [|split; [|split]].
    + intros b0 [= <-] Gf. unfold base_without_facility.
      rewrite (remove_absent _ _ Gf). destruct b; cbn.
      rewrite (set_same _ _ _ G). reflexivity.
    + intros b0 [= <-]. cbn [ProductionGraph.bases].
      split; [apply get_set_same|].
      split; [intros ND; apply get_remove_same; exact ND|].
      split; [intros fid' N; apply get_remove_other; exact N|].
      split; [intros id' N; apply get_set_other; exact N|].
      rewrite keys_set. unfold Dict.mem. rewrite G. reflexivity.
    + reflexivity.
    + unfold all_nodes. cbn [ProductionGraph.bases
        ProductionGraph.unlinked_nodes]. f_equal.
      destruct (get_split _ _ _ G) as (d1 & d2 & -> & N).
      rewrite (set_split d1 d2 base_id b _ N).
      unfold Dict.values. rewrite !map_app, !flat_map_app. reflexivity.
  - split; [reflexivity|]. split; [discriminate|].
    split; [discriminate|]. split; reflexivity.
Qed.

Lemma delete_facility_only_witness :
  snd (ProductionGraph.delete_facility 1 5 smelter_graph) = smelter_graph.
Proof.
  exact (proj1 (proj2 (delete_facility_only smelter_graph 1 5))
           smelter_base eq_refl eq_refl).
Defined.



(** ** UserInterface.calculate_possible_recipes *)

Lemma crafts_below_refl (m : UserInterface.crafts) :
  UserInterface.crafts_positive m = true -> crafts_below m m.
Proof. destruct m; cbn; [auto | lia]. Qed.

Lemma crafts_below_min (m acc : UserInterface.crafts) (c : Z) :
  crafts_below m (UserInterface.crafts_min acc c) ->
  crafts_below m acc /\ crafts_at_most m c.
Proof.
  destruct acc as [|a]; cbn; [auto|].
  destruct (Z.ltb_spec c a); cbn; destruct m; cbn; try tauto; lia.
Qed.

Lemma max_crafts_sound (net : rates) (inputs : item_rates)
    (acc m : UserInterface.crafts) :
  UserInterface.max_crafts_of net inputs acc = UserInterface.Returned m ->
  UserInterface.crafts_positive m = true ->
  crafts_below m acc /\
  forall input, In input inputs -> input_allows net m input.
Proof.
  revert acc. induction inputs as [|[item qty] inputs IH]; intros acc;
    cbn [UserInterface.max_crafts_of].
  - intros [= ->] Hp. split; [apply crafts_below_refl; exact Hp|].
    intros input [].
  - destruct (Dict.get net item) as [available|] eqn:G;
      [|intros [= <-]; discriminate].
    destruct (0 <? available) eqn:T; [|intros [= <-]; discriminate].
    unfold PyFloat.truediv. destruct (qty =? 0); [discriminate|].
    destruct (UserInterface.py_floor (available / qty)) as [c|e] eqn:F;
      [|discriminate].
    intros E Hp. destruct (IH _ E Hp) as [Hb Hr].
    apply crafts_below_min in Hb. destruct Hb as [Hb Hc].
    split; [exact Hb|].
    intros input [<-|I]; [|exact (Hr input I)].
    exists available, c. cbn [fst snd]. auto.
Qed.

Lemma possible_recipes_loop_sound (net : rates) (all rs : list Recipe.t)
    (d d' : Dict.t string UserInterface.crafts)
    (Q : string -> UserInterface.crafts -> Prop) :
  (forall r m,
     In r rs ->
     UserInterface.max_crafts_of net (Recipe.inputs r) UserInterface.Unbounded
     = UserInterface.Returned m ->
     UserInterface.crafts_positive m = true -> Q (Recipe.name r) m) ->
  UserInterface.possible_recipes_loop rs net d = UserInterface.Returned d' ->
  (forall name m, Dict.get d name = Some m -> Q name m) ->
  forall name m, Dict.get d' name = Some m -> Q name m.
Proof.
  intros HQ. revert d. induction rs as [|r rs IH]; intros d;
    cbn [UserInterface.possible_recipes_loop].
  - intros [= <-] Hd. exact Hd.
  - destruct (UserInterface.max_crafts_of net (Recipe.inputs r)
                UserInterface.Unbounded) as [m0|e] eqn:E; [|discriminate].
    intros L Hd. apply (IH (fun r' m' I => HQ r' m' (or_intror I)) _ L).
    destruct (UserInterface.crafts_positive m0) eqn:Hp; [|exact Hd].
    intros name m. rewrite get_set. cbn [key_eqb string_Key].
    destruct (String.eqb_spec (Recipe.name r) name) as [<-|_];
      [|apply Hd].
    intros [= <-]. exact (HQ r m0 (or_introl eq_refl) E Hp).
Qed.

Lemma possible_recipes_loop_mem (net : rates) (rs : list Recipe.t)
    (d d' : Dict.t string UserInterface.crafts) (k : string) :
  UserInterface.possible_recipes_loop rs net d = UserInterface.Returned d' ->
  Dict.mem d k = true
  \/ (exists r, In r rs /\ Recipe.inputs r = [] /\ Recipe.name r = k) ->
  Dict.mem d' k = true.
Proof.
  revert d. induction rs as [|r rs IH]; intros d;
    cbn [UserInterface.possible_recipes_loop].
  - intros [= <-] [M|(r & [] & _)]. exact M.
  - destruct (UserInterface.max_crafts_of net (Recipe.inputs r)
                UserInterface.Unbounded) as [m0|e] eqn:E; [|discriminate].
    intros L H. apply (IH _ L).
    destruct H as [M|(r' & [<-|I] & Hi & Hn)].
    + left. destruct (UserInterface.crafts_positive m0); [|exact M].
      rewrite mem_set, M. apply orb_true_r.
    + left. rewrite Hi in E. cbn in E. injection E as <-. cbn.
      rewrite mem_set. cbn [key_eqb string_Key]. rewrite Hn, String.eqb_refl.
      reflexivity.
    + right. exists r'. auto.
Qed.

(** X16: when calculate_possible_recipes returns, every entry of its result
    is a positive count, or infinity, under the name of a recipe of the
    catalogue all of whose inputs are keys of the net-production map with a
    positive quantity, and the count is at most
    floor(available / input_quantity) for each of them; a recipe that lists
    no input at all is always reported (with float('inf') as its count). *)
Theorem possible_recipes_are_affordable (gd : GameData.t) (net : rates)
    (d : Dict.t string UserInterface.crafts) :
  UserInterface.calculate_possible_recipes gd net = UserInterface.Returned d ->
  (forall name m,
     Dict.get d name = Some m ->
     UserInterface.crafts_positive m = true /\
     exists r,
       In r (GameData.recipes gd) /\ Recipe.name r = name /\
       forall input, In input (Recipe.inputs r) -> input_allows net m input)
  /\ (forall r, In r (GameData.recipes gd) -> Recipe.inputs r = [] ->
        Dict.mem d (Recipe.name r) = true).
Proof.
  unfold UserInterface.calculate_possible_recipes. intros L. split.
  - apply (possible_recipes_loop_sound net (GameData.recipes gd)
             (GameData.recipes gd) [] d
             (fun name m =>
                UserInterface.crafts_positive m = true /\
                exists r,
                  In r (GameData.recipes gd) /\ Recipe.name r = name /\
                  forall input, In input (Recipe.inputs r) ->
                                input_allows net m input)).
    + intros r m I E Hp. split; [exact Hp|]. exists r.
      split; [exact I|]. split; [reflexivity|].
      exact (proj2 (max_crafts_sound net _ _ m E Hp)).
    + exact L.
    + intros name m G. discriminate G.
  - intros r I Hi.
    apply (possible_recipes_loop_mem net _ [] d (Recipe.name r) L).
    right. exists r. auto.
Qed.

Lemma possible_recipes_are_affordable_witness :
  UserInterface.calculate_possible_recipes smelting_catalogue
    [("Iron Ore"%string, 75)]
  = UserInterface.Returned [("Iron Ingot"%string, UserInterface.Times 2)]
  /\ UserInterface.crafts_positive (UserInterface.Times 2) = true.
Proof.
  assert (E : UserInterface.calculate_possible_recipes smelting_catalogue
                [("Iron Ore"%string, 75)]
              = UserInterface.Returned
                  [("Iron Ingot"%string, UserInterface.Times 2)])
    by (vm_compute; reflexivity).
  split; [exact E|].
  exact (proj1 (proj1 (possible_recipes_are_affordable _ _ _ E)
                  "Iron Ingot"%string (UserInterface.Times 2) eq_refl)).
Defined.

Lemma recipe_lookup_witness :
  GameData.get_recipe_by_name
    (GameData.delete_recipe smelting_catalogue "Steel") "Iron Ingot"
  = Some (Recipe.mk "Iron Ingot" "Smelter"
            [("Iron Ore"%string, 30)] [("Iron Ingot"%string, 30)]).
Proof.
  rewrite (proj1 (proj2 (recipe_lookup smelting_catalogue "Steel"))).
  - reflexivity.
  - discriminate.
Defined.

(** ** Adding a facility to a base *)

Lemma values_app {K V : Type} (d1 d2 : Dict.t K V) :
  Dict.values (d1 ++ d2) = Dict.values d1 ++ Dict.values d2.
Proof. apply map_app. Qed.

(** X17: adding a facility under a new id to a base changes the per-base
    totals by that facility alone: the query on the new graph returns what
    the query on the old graph returned, with the facility's adjusted input
    rates then added to consumption and its adjusted output rates to
    production, each addition rounded (and it raises when either step
    does). *)
Theorem per_base_rates_are_incremental (g : ProductionGraph.t) (b : Base.t)
    (f : Facility.t) :
  Dict.get (ProductionGraph.bases g) (Base.base_id b) = Some b ->
  Dict.get (Base.facilities b) (Facility.facility_id f) = None ->
  fst (ProductionGraph.calculate_production_rates_for_base (Base.base_id b)
         (with_facility g b f))
  = ('(p, c) <- fst (ProductionGraph.calculate_production_rates_for_base
                       (Base.base_id b) g) ;;
     '(c', p') <- accumulate_facility (c, p) f ;;
     Ok (p', c')).
Proof.
  intros Gb Gf.
  unfold ProductionGraph.calculate_production_rates_for_base,
    ProductionGraph.reading, with_facility, ProductionGraph.add_base.
  cbn [fst snd].
  unfold ProductionGraph.calculate_production_rates_for_base_body.
  cbn [ProductionGraph.bases Base.add_facility Base.base_id].
  rewrite get_set_same, Gb.
  cbn [Base.add_facility Base.nodes Base.facilities].
  rewrite (set_fresh _ _ f Gf), values_app.
  destruct (for_each (Dict.values (Base.nodes b)) accumulate_node [])
    as [raw|e]; cbn [bind]; [|reflexivity].
  rewrite for_each_app. cbn [Dict.values map snd for_each].
  destruct (for_each (Dict.values (Base.facilities b)) accumulate_facility
              ([], raw)) as [[c p]|e]; cbn [bind]; [|reflexivity].
  destruct (accumulate_facility (c, p) f) as [[c' p']|e]; reflexivity.
Qed.

Lemma per_base_rates_are_incremental_witness :
  fst (ProductionGraph.calculate_production_rates_for_base 1
         (with_facility smelter_graph smelter_base
            (Scenario.facility 2 [("Iron Ingot"%string, 30)]
                                 [("Iron Plate"%string, 20)])))
  = Ok ([("Iron Ore"%string, 60); ("Iron Ingot"%string, 30);
         ("Iron Plate"%string, 20)],
        [("Iron Ore"%string, 30); ("Iron Ingot"%string, 30)]).
Proof.
  eapply eq_trans;
    [exact (per_base_rates_are_incremental smelter_graph smelter_base
              (Scenario.facility 2 [("Iron Ingot"%string, 30)]
                                   [("Iron Plate"%string, 20)])
              eq_refl eq_refl)
    | vm_compute; reflexivity].
Defined.
